(** * doshmon: the budget-board housekeeping pass of [doshmon.py]

    A shallow embedding of the [Doshmon] class and of the command builders of
    the [Todoist] class, followed by the properties of the reconciliation
    pass.

    Python values are modelled as follows.
    - [str] is a list of Unicode code points ([N]).
    - a [float] is an IEEE-754 binary64 value, through the Standard Library's
      [spec_float] with [prec = 53] and [emax = 1024].
    - a JSON object of the sync API is a record with the keys the program
      reads.
    - a raised exception is the left summand of the result of a computation;
      the state a computation leaves behind (the mutated [sections] list, the
      number of UUIDs drawn) is returned next to it. *)

From Stdlib Require Import List Bool Arith ZArith NArith Lia String Ascii.
From Stdlib Require Import Floats.SpecFloat.
Import ListNotations.

Set Implicit Arguments.

(** ** Python strings *)

Module Str.

Definition codepoint := N.
Definition str := list codepoint.

(** Decoding of the UTF-8 bytes of a Rocq string literal, so that the
    literals of the program can be written as they are in the source. *)
Fixpoint utf8 (bs : list N) : str :=
  match bs with
  | [] => []
  | b0 :: r0 =>
    if (b0 <? 128)%N then b0 :: utf8 r0
    else
      match r0 with
      | [] => [b0]
      | b1 :: r1 =>
        if (b0 <? 224)%N
        then (N.lor (N.shiftl (N.land b0 31) 6) (N.land b1 63)) :: utf8 r1
        else
          match r1 with
          | [] => [b0; b1]
          | b2 :: r2 =>
            if (b0 <? 240)%N
            then (N.lor (N.shiftl (N.land b0 15) 12)
                    (N.lor (N.shiftl (N.land b1 63) 6) (N.land b2 63)))
                 :: utf8 r2
            else
              match r2 with
              | [] => [b0; b1; b2]
              | b3 :: r3 =>
                (N.lor (N.shiftl (N.land b0 7) 18)
                   (N.lor (N.shiftl (N.land b1 63) 12)
                      (N.lor (N.shiftl (N.land b2 63) 6) (N.land b3 63))))
                :: utf8 r3
              end
          end
      end
  end.

Definition u (s : string) : str :=
  utf8 (map N_of_ascii (list_ascii_of_string s)).

Fixpoint eqb (a b : str) : bool :=
  match a, b with
  | [], [] => true
  | x :: a', y :: b' => (x =? y)%N && eqb a' b'
  | _, _ => false
  end.

(** [s.startswith(p)] *)
Fixpoint startswith (s p : str) : bool :=
  match p, s with
  | [], _ => true
  | y :: p', x :: s' => (x =? y)%N && startswith s' p'
  | _ :: _, [] => false
  end.

(** [str.lower].  The code points whose lowercase form contains an ASCII
    character are A-Z, U+0130 (two code points: i, U+0307) and U+212A
    (KELVIN SIGN, k).  Every other code point is mapped by Python to one
    code point outside ASCII; it is kept as it is here, which a comparison
    with an ASCII prefix (all the program does with a lowered string) cannot
    tell apart. *)
Definition lower_cp (c : codepoint) : str :=
  if (65 <=? c)%N && (c <=? 90)%N then [(c + 32)%N]
  else if (c =? 304)%N then [105%N; 775%N]
  else if (c =? 8490)%N then [107%N]
  else [c].

Definition lower (s : str) : str := flat_map lower_cp s.

(** [str.isspace] on one code point: the separators of [str.split()]. *)
Definition isspace (c : codepoint) : bool :=
  ((9 <=? c) && (c <=? 13) || (28 <=? c) && (c <=? 32)
   || (c =? 133) || (c =? 160) || (c =? 5760)
   || (8192 <=? c) && (c <=? 8202)
   || (c =? 8232) || (c =? 8233) || (c =? 8239) || (c =? 8287)
   || (c =? 12288))%N.

Definition flush (w : str) : list str :=
  match w with [] => [] | _ :: _ => [w] end.

(** [s.split()]: the maximal runs of non-space code points; [w] is the word
    being read. *)
Fixpoint split_from (w s : str) : list str :=
  match s with
  | [] => flush w
  | c :: s' =>
    if isspace c then flush w ++ split_from [] s'
    else split_from (w ++ [c]) s'
  end.

Definition split (s : str) : list str := split_from [] s.

(** [sep.join(ws)] *)
Fixpoint join (sep : str) (ws : list str) : str :=
  match ws with
  | [] => []
  | [w] => w
  | w :: ws' => w ++ sep ++ join sep ws'
  end.

(** [s.replace(old, new)] for a one-character [old]. *)
Definition replace (old : codepoint) (new : str) (s : str) : str :=
  flat_map (fun c => if (c =? old)%N then new else [c]) s.

Definition isdigit (c : codepoint) : bool := ((48 <=? c) && (c <=? 57))%N.
Definition isupper (c : codepoint) : bool := ((65 <=? c) && (c <=? 90))%N.
Definition islower (c : codepoint) : bool := ((97 <=? c) && (c <=? 122))%N.

Definition pound : codepoint := 163%N.
Definition space : codepoint := 32%N.
Definition dot : codepoint := 46%N.
Definition lparen : codepoint := 40%N.
Definition rparen : codepoint := 41%N.

(** The decimal numeral of a non-negative integer, [str(n)]. *)
Fixpoint digits_of (fuel : nat) (n : N) (acc : str) : str :=
  match fuel with
  | O => acc
  | S fuel' =>
    let acc' := (48 + n mod 10)%N :: acc in
    if (n <? 10)%N then acc' else digits_of fuel' (n / 10)%N acc'
  end.

Definition of_N (n : N) : str := digits_of (S (N.to_nat (N.log2 n))) n [].

End Str.

Import Str.

(** ** Python numbers *)

Module Num.

(** binary64 *)
Definition prec : Z := 53.
Definition emax : Z := 1024.

Definition float64 := spec_float.

(** The float nearest to the integer [n] ([float(n)] for an [int]). *)
Definition of_Z (n : Z) : float64 := binary_normalize prec emax n 0 false.

(** The float nearest to [m * 10^e], ties to even: the value [float()]
    gives to a decimal literal with digits [m] and exponent [e]. *)
Definition of_decimal (m : N) (e : Z) : float64 :=
  match m with
  | N0 => S754_zero false
  | Npos p =>
    match e with
    | Zneg k =>
      SFdiv prec emax (S754_finite false p 0)
                      (S754_finite false (Pos.pow 10 k) 0)
    | _ => of_Z (Zpos p * 10 ^ e)
    end
  end.

Definition fadd : float64 -> float64 -> float64 := SFadd prec emax.
Definition fltb : float64 -> float64 -> bool := SFltb.

(** The value of [total] in [_get_total_cost]: the [int] it starts as, or
    the [float] it becomes at the first [+=]. *)
Inductive num :=
  | PyInt (z : Z)
  | PyFloat (f : float64).

(** [a + f] for a float [f]: an [int] operand is converted first. *)
Definition add_float (a : num) (f : float64) : num :=
  match a with
  | PyInt z => PyFloat (fadd (of_Z z) f)
  | PyFloat g => PyFloat (fadd g f)
  end.

(** [a > n] for an [int] [n].  Python compares a float with an int by
    value; [n] is converted exactly for the constants used here. *)
Definition gt_int (a : num) (n : Z) : bool :=
  match a with
  | PyInt z => (n <? z)%Z
  | PyFloat f => fltb (of_Z n) f
  end.

(** *** [float(s)] on the tokens the program passes to it

    [_get_total_cost] removes every character outside [a-zA-Z0-9.£ ] before
    it splits, so a sign, an underscore, white space or a non-ASCII digit
    never reaches [float]; on the remaining alphabet the accepted literals
    are [digits [. digits] [e digits]] with a digit before or after the
    point, and the words inf, infinity and nan in any case. *)

Fixpoint span_digits (s : str) : str * str :=
  match s with
  | c :: s' =>
    if isdigit c then let (d, r) := span_digits s' in (c :: d, r)
    else ([], s)
  | [] => ([], [])
  end.

Definition digits_val (d : str) : N :=
  fold_left (fun acc c => (10 * acc + (c - 48))%N) d 0%N.

Definition ascii_lower (s : str) : str :=
  map (fun c => if isupper c then (c + 32)%N else c) s.

Definition is_e (c : codepoint) : bool := ((c =? 101) || (c =? 69))%N.

Definition parse_decimal (s : str) : option (N * Z) :=
  let (ip, r1) := span_digits s in
  let (fp, r2) :=
    match r1 with
    | c :: r => if (c =? dot)%N then span_digits r else ([], r1)
    | [] => ([], r1)
    end in
  match ip ++ fp with
  | [] => None
  | _ :: _ =>
    let m := digits_val (ip ++ fp) in
    let scale := Z.of_nat (List.length fp) in
    match r2 with
    | [] => Some (m, (- scale)%Z)
    | c :: r3 =>
      if is_e c then
        let (ep, r4) := span_digits r3 in
        match ep, r4 with
        | _ :: _, [] => Some (m, (Z.of_N (digits_val ep) - scale)%Z)
        | _, _ => None
        end
      else None
    end
  end.

(** [None] stands for the [ValueError] of [float]. *)
Definition float_of_str (s : str) : option float64 :=
  let l := ascii_lower s in
  if Str.eqb l (u "inf") || Str.eqb l (u "infinity")
  then Some (S754_infinity false)
  else if Str.eqb l (u "nan") then Some S754_nan
  else
    match parse_decimal s with
    | Some (m, e) => Some (of_decimal m e)
    | None => None
    end.

End Num.

Import Num.

(** ** [datetime] *)

Module Datetime.

(** The exceptions the program can raise. *)
Inductive exn :=
  | ValueError
  | AttributeError (object attribute : string).

Definition result (A : Type) : Type := exn + A.

Record datetime := { year : Z; month : Z; day : Z }.

Definition MINYEAR : Z := 1.
Definition MAXYEAR : Z := 9999.

Definition is_leap (y : Z) : bool :=
  ((y mod 4 =? 0) && (negb (y mod 100 =? 0) || (y mod 400 =? 0)))%Z.

Definition days_in_month (y m : Z) : Z :=
  if (m =? 2)%Z then (if is_leap y then 29 else 28)%Z
  else if ((m =? 4) || (m =? 6) || (m =? 9) || (m =? 11))%Z then 30%Z
  else 31%Z.

(** What [datetime.now()] can return. *)
Definition valid (d : datetime) : Prop :=
  (MINYEAR <= year d <= MAXYEAR /\ 1 <= month d <= 12
   /\ 1 <= day d <= days_in_month (year d) (month d))%Z.

Definition validb (d : datetime) : bool :=
  ((MINYEAR <=? year d) && (year d <=? MAXYEAR)
   && (1 <=? month d) && (month d <=? 12)
   && (1 <=? day d) && (day d <=? days_in_month (year d) (month d)))%Z.

(** [datetime(year=y, month=m, day=d)]: a [ValueError] outside the range. *)
Definition make (y m d : Z) : result datetime :=
  let dt := {| year := y; month := m; day := d |} in
  if validb dt then inr dt else inl ValueError.

(** The order of [datetime] values (all of one time of day here). *)
Definition leb (a b : datetime) : bool :=
  ((year a <? year b)
   || (year a =? year b)
      && ((month a <? month b)
          || (month a =? month b) && (day a <=? day b)))%Z.

Definition ltb (a b : datetime) : bool := negb (leb b a).

Fixpoint insert (d : datetime) (l : list datetime) : list datetime :=
  match l with
  | [] => [d]
  | x :: l' => if leb d x then d :: l else x :: insert d l'
  end.

(** [list.sort()] *)
Definition sort (l : list datetime) : list datetime :=
  fold_right insert [] l.

Definition month_names : list string :=
  ["January"; "February"; "March"; "April"; "May"; "June"; "July";
   "August"; "September"; "October"; "November"; "December"]%string.

(** [%B] in the C locale, the locale of a Python process that has not
    called [setlocale]. *)
Definition month_name (m : Z) : str :=
  u (nth (Z.to_nat (m - 1)) month_names EmptyString).

(** [dt.strftime('%B %Y')]; the year is written without padding, as the C
    library does. *)
Definition strftime_B_Y (d : datetime) : str :=
  month_name (month d) ++ [space] ++ of_N (Z.to_N (year d)).

End Datetime.

Import Datetime.

(** ** The objects of the sync API *)

(** A section object: the keys ['id'], ['name'] and ['project_id']. *)
Record section := {
  s_id : str;
  s_name : str;
  s_project_id : str
}.

(** An item object: the keys ['id'], ['content'], ['section_id'] (null for
    an item outside every section), ['checked'], ['is_deleted'] and
    ['project_id']. *)
Record task := {
  t_id : str;
  t_content : str;
  t_section_id : option str;
  t_checked : bool;
  t_is_deleted : bool;
  t_project_id : str
}.

(** The commands built by the [Todoist] class, by their ['type']. *)
Inductive command :=
  | section_add (temp_id uuid name project_id : str)
  | item_move (uuid id : str) (section_id : option str)
  | section_reorder (uuid : str) (sections : list (str * nat))
  | section_update (uuid id name : str).

Definition opt_eqb (a b : option str) : bool :=
  match a, b with
  | Some x, Some y => Str.eqb x y
  | None, None => true
  | _, _ => false
  end.

(** ** The state of one pass and its monad *)

(** The objects a pass works on: the [sections] and [tasks] lists that
    [do_housekeeping] hands to every method (one list object each, so that
    an [append] by one method is seen by the next), and the number of UUIDs
    drawn so far. *)
Record world := {
  drawn : nat;
  sections : list section;
  tasks : list task
}.

Definition M (A : Type) : Type := world -> result A * world.

Definition ret {A} (a : A) : M A := fun w => (inr a, w).

Definition raise {A} (e : exn) : M A := fun w => (inl e, w).

Definition bind {A B} (c : M A) (k : A -> M B) : M B :=
  fun w =>
    match c w with
    | (inr a, w') => k a w'
    | (inl e, w') => (inl e, w')
    end.

Definition lift {A} (r : result A) : M A := fun w => (r, w).

Declare Scope py_scope.
Delimit Scope py_scope with py.
Notation "x <- c ;; k" := (bind c (fun x => k))
  (at level 61, c at next level, right associativity) : py_scope.
Notation "c ;;; k" := (bind c (fun _ => k))
  (at level 61, right associativity) : py_scope.
Open Scope py_scope.

Definition get_sections : M (list section) := fun w => (inr (sections w), w).
Definition get_tasks : M (list task) := fun w => (inr (tasks w), w).

(** [sections.append(s)] *)
Definition append_section (s : section) : M unit :=
  fun w => (inr tt, {| drawn := drawn w;
                       sections := sections w ++ [s];
                       tasks := tasks w |}).

(** A [for] loop that carries the local list [cmds]. *)
Fixpoint for_each {A} (xs : list A) (body : A -> list command -> M (list command))
    (cmds : list command) : M (list command) :=
  match xs with
  | [] => ret cmds
  | x :: xs' => cmds' <- body x cmds ;; for_each xs' body cmds'
  end.

(** The same in the result monad, for code that touches no state. *)
Fixpoint map_result {A B} (f : A -> result B) (xs : list A) : result (list B) :=
  match xs with
  | [] => inr []
  | x :: xs' =>
    match f x with
    | inl e => inl e
    | inr y =>
      match map_result f xs' with
      | inl e => inl e
      | inr ys => inr (y :: ys)
      end
    end
  end.

(** ** The program *)

Definition MONTHLY_BUDGET : Z := 500.

(** [str(z)] for an [int]. *)
Definition str_of_Z (z : Z) : str :=
  if (z <? 0)%Z then u "-" ++ of_N (Z.abs_N z) else of_N (Z.to_N z).

(** [range(a, b)] *)
Definition range (a b : Z) : list Z :=
  map (fun i => (a + Z.of_nat i)%Z) (seq 0 (Z.to_nat (b - a))).

(** [any(s['name'].lower().startswith(e.lower()) ...)]: does [name] carry the
    label [e] as a prefix, case aside. *)
Definition matches (name e : str) : bool := startswith (lower name) (lower e).

(** The character class of [re.sub(r'[^a-zA-Z0-9.£ ]+', '', ...)]: what the
    substitution leaves in place. *)
Definition kept (c : codepoint) : bool :=
  islower c || isupper c || isdigit c
  || (c =? dot)%N || (c =? pound)%N || (c =? space)%N.

Section Doshmon.

(** The value of [datetime.now()], read as one instant for the whole pass. *)
Variable now : datetime.

(** [self.project_id] *)
Variable project_id : str.

(** The outcome of the [n]-th call of [uuid4()] in this process. *)
Variable uuid4 : nat -> str.

(** [str(x)] for a float [x] (the shortest numeral that reads back as [x]). *)
Variable float_repr : float64 -> str.

(** [random_uuid()] *)
Definition random_uuid : M str :=
  fun w => (inr (uuid4 (drawn w)),
            {| drawn := S (drawn w); sections := sections w; tasks := tasks w |}).

(** *** class [Todoist]: the command builders *)

Definition add_section (name proj temp_id : str) : M command :=
  uuid <- random_uuid ;;
  ret (section_add temp_id uuid name proj).

Definition move_task_to_section (task_id : str) (section_id : option str)
    : M command :=
  uuid <- random_uuid ;;
  ret (item_move uuid task_id section_id).

Definition reorder_sections (order_map : list (str * nat)) : M command :=
  uuid <- random_uuid ;;
  ret (section_reorder uuid order_map).

Definition rename_section (section_id name : str) : M command :=
  uuid <- random_uuid ;;
  ret (section_update uuid section_id name).

(** *** class [Doshmon] *)

(** The year given to [month] by the loop of [_get_expected_sections]. *)
Definition year_of_month (m : Z) : Z :=
  if (m =? month now)%Z then year now
  else if (m <? month now)%Z then (year now + 1)%Z
  else year now.

(** [expected_dts] after the loop, before the sort. *)
Definition expected_dts : result (list datetime) :=
  map_result (fun m => make (year_of_month m) m 1) (range 1 13).

Definition _get_expected_sections : result (list str) :=
  match expected_dts with
  | inl e => inl e
  | inr dts =>
    let expected := map strftime_B_Y (sort dts) in
    inr (firstn 1 expected ++ [u "Backlog"] ++ skipn 1 expected)
  end.

Fixpoint _get_current_section_id (secs : list section) : option str :=
  match secs with
  | [] => None
  | s :: secs' =>
    if matches (s_name s) (strftime_B_Y now) then Some (s_id s)
    else _get_current_section_id secs'
  end.

(** The inner loop of [_get_total_cost] over the words of one task: the
    first word that starts with the pound sign is added, and the loop is
    left. *)
Fixpoint add_first_price (ws : list str) (total : num) : result num :=
  match ws with
  | [] => inr total
  | w :: ws' =>
    if startswith w [pound] then
      match float_of_str (skipn 1 w) with
      | Some f => inr (add_float total f)
      | None => inl ValueError
      end
    else add_first_price ws' total
  end.

Definition trimmed_desc (t : task) : str := filter kept (t_content t).

Fixpoint total_cost_from (ts : list task) (total : num) : result num :=
  match ts with
  | [] => inr total
  | t :: ts' =>
    match add_first_price (split (trimmed_desc t)) total with
    | inl e => inl e
    | inr total' => total_cost_from ts' total'
    end
  end.

Definition _get_total_cost (ts : list task) : result num :=
  total_cost_from ts (PyInt 0).

(** [f'{cost}'] *)
Definition str_of_num (c : num) : str :=
  match c with
  | PyInt z => str_of_Z z
  | PyFloat f => float_repr f
  end.

Definition add_missing_sections : M (list command) :=
  expected <- lift _get_expected_sections ;;
  for_each expected
    (fun expected_section cmds =>
       secs <- get_sections ;;
       if negb (existsb (fun s => matches (s_name s) expected_section) secs)
       then
         let name := expected_section ++ u " (£0.00 / £"
                       ++ str_of_Z MONTHLY_BUDGET ++ u ")" in
         temp_id <- random_uuid ;;
         arg_temp_id <- random_uuid ;;
         cmd <- add_section name project_id arg_temp_id ;;
         append_section {| s_id := temp_id; s_name := name;
                           s_project_id := project_id |} ;;;
         ret (cmds ++ [cmd])
       else ret cmds)
    [].

(** [tasks_to_move] of [archive_unwanted_sections]. *)
Definition tasks_to_move (ts : list task) (s : section) : list task :=
  filter (fun t => opt_eqb (t_section_id t) (Some (s_id s))
                   && negb (t_checked t) && negb (t_is_deleted t)) ts.

(** [section.name] in the log line of [archive_unwanted_sections]:
    [section] is a [dict], which has no attribute [name]. *)
Definition section_dot_name (s : section) : M str :=
  raise (AttributeError "dict" "name").

(** [self.move_task_to_section(...)]: the class [Doshmon] defines no such
    method ([Todoist] does). *)
Definition self_move_task_to_section (task_id : str) (section_id : option str)
    : M command :=
  raise (AttributeError "Doshmon" "move_task_to_section").

(** [self.api.archive_section(...)]: the class [Todoist] defines no such
    method. *)
Definition api_archive_section (section_id : str) : M command :=
  raise (AttributeError "Todoist" "archive_section").

Definition archive_unwanted_sections : M (list command) :=
  expected <- lift _get_expected_sections ;;
  secs <- get_sections ;;
  ts <- get_tasks ;;
  let current_section_id := _get_current_section_id secs in
  for_each secs
    (fun s cmds =>
       if negb (existsb (fun e => matches (s_name s) e) expected)
       then
         let to_move := tasks_to_move ts s in
         section_dot_name s ;;;
         cmds1 <- for_each to_move
                    (fun t cmds =>
                       cmd <- self_move_task_to_section (t_id t)
                                current_section_id ;;
                       (* task['section_id'] == current_section_id: a
                          comparison whose value is dropped *)
                       let _ := opt_eqb (t_section_id t) current_section_id in
                       ret (cmds ++ [cmd]))
                    cmds ;;
         cmd <- api_archive_section (s_id s) ;;
         ret (cmds1 ++ [cmd])
       else ret cmds)
    [].

(** [{"id": s['id'], "section_order": idx + 1} for idx, s in enumerate(...)] *)
Fixpoint order_map_from (idx : nat) (secs : list section) : list (str * nat) :=
  match secs with
  | [] => []
  | s :: secs' => (s_id s, idx + 1) :: order_map_from (S idx) secs'
  end.

Definition set_section_order : M (list command) :=
  secs <- get_sections ;;
  cmd <- reorder_sections (order_map_from 0 secs) ;;
  ret [cmd].

(** The title before the overspend marks are put in. *)
Definition plain_title (name : str) (cost : num) : str :=
  join [space] (firstn 2 (split name))
  ++ u " (£" ++ str_of_num cost ++ u " / £" ++ str_of_Z MONTHLY_BUDGET ++ u ")".

Definition mark_overspend (title : str) : str :=
  replace rparen (u " !!!") (replace lparen (u "!!! ") title).

(** [expected_title] of [set_section_titles] for one section. *)
Definition expected_title (secs : list section) (ts : list task) (s : section)
    : result str :=
  if startswith (s_name s) (u "Backlog") then inr (u "Backlog")
  else
    let tasks_for_section :=
      filter (fun t => opt_eqb (t_section_id t) (Some (s_id s))) ts in
    match _get_total_cost tasks_for_section with
    | inl e => inl e
    | inr cost =>
      let title := plain_title (s_name s) cost in
      if opt_eqb (Some (s_id s)) (_get_current_section_id secs)
         && gt_int cost MONTHLY_BUDGET
      then inr (mark_overspend title)
      else inr title
    end.

Definition set_section_titles : M (list command) :=
  secs <- get_sections ;;
  ts <- get_tasks ;;
  for_each secs
    (fun s cmds =>
       title <- lift (expected_title secs ts s) ;;
       if negb (Str.eqb title (s_name s))
       then cmd <- rename_section (s_id s) title ;; ret (cmds ++ [cmd])
       else ret cmds)
    [].

(** [do_housekeeping], from the state that [get_state] returned to the
    list of commands handed to [do_update]. *)
Definition do_housekeeping : M (list command) :=
  c1 <- add_missing_sections ;;
  c2 <- archive_unwanted_sections ;;
  c3 <- set_section_order ;;
  c4 <- set_section_titles ;;
  ret (c1 ++ c2 ++ c3 ++ c4).

End Doshmon.

(** ** Notions used in the statements *)

(** [m1 * 2^e1 = m2 * 2^e2], over the integers. *)
Definition dyadic_eq (m1 e1 m2 e2 : Z) : Prop :=
  (m1 * 2 ^ (e1 - Z.min e1 e2) = m2 * 2 ^ (e2 - Z.min e1 e2))%Z.

(** The float [f] is the number [m * 2^e]. *)
Definition float_is (f : float64) (m e : Z) : Prop :=
  match f with
  | S754_zero _ => dyadic_eq 0 0 m e
  | S754_finite s m' e' => dyadic_eq (cond_Zopp s (Zpos m')) e' m e
  | S754_infinity _ | S754_nan => False
  end.

(** What one task adds to the total: the value of its first word that
    starts with the pound sign, if it has one. *)
Definition contribution (t : task) : result (option float64) :=
  match find (fun w => startswith w [pound]) (split (trimmed_desc t)) with
  | None => inr None
  | Some w =>
    match float_of_str (skipn 1 w) with
    | Some f => inr (Some f)
    | None => inl ValueError
    end
  end.

Definition add_contribution (total : num) (c : option float64) : num :=
  match c with
  | None => total
  | Some f => add_float total f
  end.

(** A task whose content is [c], in no section. *)
Definition task_of_content (c : string) : task :=
  {| t_id := u "t"; t_content := u c; t_section_id := None;
     t_checked := false; t_is_deleted := false; t_project_id := u "p" |}.

(** Neighbours in [l] are in strictly increasing order. *)
Fixpoint increasing (l : list datetime) : bool :=
  match l with
  | [] => true
  | a :: l' =>
    match l' with
    | [] => true
    | b :: _ => ltb a b && increasing l'
    end
  end.

(** The rule of the schedule builder for the year of month [m], written
    out. *)
Definition rolling_year (now : datetime) (m : Z) : Z :=
  if (m =? month now)%Z then year now
  else if (m <? month now)%Z then (year now + 1)%Z
  else year now.

(** The dates on which the schedule can be built: the first of each month
    of the rolling year has to be a [datetime]. *)
Definition schedulable (now : datetime) : Prop :=
  valid now /\ (year now < MAXYEAR \/ month now = 1)%Z.

Definition str_eq_dec : forall a b : str, {a = b} + {a <> b} :=
  list_eq_dec N.eq_dec.

Definition no_paren (s : str) : bool :=
  forallb (fun c => negb ((c =? lparen) || (c =? rparen))%N) s.

(** The identifier and the new name of a rename command. *)
Definition rename_of (c : command) : option (str * str) :=
  match c with
  | section_update _ id name => Some (id, name)
  | _ => None
  end.

Definition is_rename (c : command) : bool :=
  match c with section_update _ _ _ => true | _ => false end.

Definition is_create (c : command) : bool :=
  match c with section_add _ _ _ _ => true | _ => false end.

Definition temp_id_of (c : command) : option str :=
  match c with
  | section_add temp_id _ _ _ => Some temp_id
  | _ => None
  end.

(** The renames a pass owes: the sections, paired with their expected
    titles, whose title is not their name. *)
Definition due_renames (secs : list section) (titles : list str)
    : list (str * str) :=
  map (fun p => (s_id (fst p), snd p))
    (filter (fun p => if str_eq_dec (snd p) (s_name (fst p))
                      then false else true)
       (combine secs titles)).

(** The world [w] after [n] UUIDs in all have been drawn. *)
Definition with_drawn (n : nat) (w : world) : world :=
  {| drawn := n; sections := sections w; tasks := tasks w |}.

(** The date [d] moved by [k] years. *)
Definition shift (k : Z) (d : datetime) : datetime :=
  {| year := year d + k; month := month d; day := day d |}.

Definition months : list Z := [1; 2; 3; 4; 5; 6; 7; 8; 9; 10; 11; 12]%Z.

(** The first day of month [m] in the rolling year that starts at [now]. *)
Definition first_of_month (now : datetime) (m : Z) : datetime :=
  {| year := rolling_year now m; month := m; day := 1 |}.

Definition year0 (c : Z) : datetime := {| year := 0; month := c; day := 1 |}.

(** *** The remote side *)

(** Modelled from the spec: the Remote State Gateway ([fetch] and [apply],
    sections 3, 4 and 6), which stands for the web service and is no part
    of the program.  A create command adds a section under the identifier
    the command carries; a relocation, a rename and a reorder act on the
    objects whose identifiers they name and leave everything else as it
    is. *)
Record remote := {
  r_sections : list section;
  r_tasks : list task
}.

Definition rename_in (id name : str) (s : section) : section :=
  if Str.eqb (s_id s) id
  then {| s_id := s_id s; s_name := name; s_project_id := s_project_id s |}
  else s.

Definition move_in (id : str) (section_id : option str) (t : task) : task :=
  if Str.eqb (t_id t) id
  then {| t_id := t_id t; t_content := t_content t;
          t_section_id := section_id; t_checked := t_checked t;
          t_is_deleted := t_is_deleted t; t_project_id := t_project_id t |}
  else t.

Definition listed (order : list (str * nat)) (s : section) : bool :=
  existsb (fun p => Str.eqb (fst p) (s_id s)) order.

Definition reorder_in (order : list (str * nat)) (secs : list section)
    : list section :=
  flat_map (fun p => filter (fun s => Str.eqb (s_id s) (fst p)) secs) order
  ++ filter (fun s => negb (listed order s)) secs.

Definition apply_command (r : remote) (c : command) : remote :=
  match c with
  | section_add temp_id _ name proj =>
    {| r_sections := r_sections r
                     ++ [{| s_id := temp_id; s_name := name;
                            s_project_id := proj |}];
       r_tasks := r_tasks r |}
  | item_move _ id section_id =>
    {| r_sections := r_sections r;
       r_tasks := map (move_in id section_id) (r_tasks r) |}
  | section_reorder _ order =>
    {| r_sections := reorder_in order (r_sections r); r_tasks := r_tasks r |}
  | section_update _ id name =>
    {| r_sections := map (rename_in id name) (r_sections r);
       r_tasks := r_tasks r |}
  end.

Definition apply (cmds : list command) (r : remote) : remote :=
  fold_left apply_command cmds r.

(** The state of a pass that starts from what [fetch] returns. *)
Definition fetch (r : remote) : world :=
  {| drawn := 0; sections := r_sections r; tasks := r_tasks r |}.

(** One pass against the remote state: the commands of [do_housekeeping]
    and the remote state after they are applied; [None] when the pass
    raises, in which case nothing is sent. *)
Definition pass (now : datetime) (project_id : str) (uuid4 : nat -> str)
    (float_repr : float64 -> str) (r : remote)
    : option (list command * remote) :=
  match fst (do_housekeeping now project_id uuid4 float_repr (fetch r)) with
  | inr cmds => Some (cmds, apply cmds r)
  | inl _ => None
  end.

(** ** Data of the examples *)

Definition now0 : datetime := {| year := 2026; month := 11; day := 3 |}.

Definition now_9999 : datetime := {| year := 9999; month := 2; day := 3 |}.

Definition uuid_n (n : nat) : str := u "uuid-" ++ of_N (N.of_nat n).

(** [str(x)] on the floats whose value is an integer below 10^16, which
    Python writes as the integer followed by [.0]; enough for the
    examples. *)
Definition repr_integral (f : float64) : str :=
  match f with
  | S754_zero s => (if s then u "-" else []) ++ u "0.0"
  | S754_infinity s => (if s then u "-" else []) ++ u "inf"
  | S754_nan => u "nan"
  | S754_finite s m e =>
    (if s then u "-" else [])
    ++ of_N (match e with
             | Zneg k => Npos m / Npos (Pos.pow 2 k)
             | _ => Npos m * 2 ^ Z.to_N e
             end)
    ++ u ".0"
  end.

Definition sec (id name : string) : section :=
  {| s_id := u id; s_name := u name; s_project_id := u "p" |}.

Definition tsk (id content section_id : string) (checked : bool) : task :=
  {| t_id := u id; t_content := u content; t_section_id := Some (u section_id);
     t_checked := checked; t_is_deleted := false; t_project_id := u "p" |}.

(** A board with the section of the current month and a section of no
    label, which holds two open tasks and a completed one. *)
Definition w_archive : world :=
  {| drawn := 0;
     sections := [sec "cur" "November 2026 (£0 / £500)"; sec "s1" "Misc"];
     tasks := [tsk "t1" "Shoes £40" "s1" false; tsk "t2" "Hat" "s1" false;
               tsk "t3" "Coat £90" "s1" true] |}.

(** A board on which the current month is over budget and a later month is
    too, through a completed task. *)
Definition w_spend : world :=
  {| drawn := 0;
     sections := [sec "cur" "November 2026 (£0 / £500)";
                  sec "bk" "Backlog (£0.00 / £500)";
                  sec "dec" "December 2026 (£0 / £500)"];
     tasks := [tsk "t1" "TV £550" "cur" false;
               tsk "t2" "Trip £600" "dec" true] |}.

(** A board whose December section holds a task with a price that is no
    number. *)
Definition w_tbd : world :=
  {| drawn := 0;
     sections := [sec "a" "November 2026"; sec "b" "December 2026"];
     tasks := [tsk "t" "Fee £TBD" "b" false] |}.

Definition w_empty : world := {| drawn := 0; sections := []; tasks := [] |}.

Definition r_empty : remote := {| r_sections := []; r_tasks := [] |}.

(** A board that has every section of the schedule, titled as the program
    titles them, with the catch-all section named in lower case. *)
Definition r_backlog : remote :=
  {| r_sections :=
       [sec "s0" "November 2026 (£0 / £500)"; sec "s1" "backlog";
        sec "s2" "December 2026 (£0 / £500)";
        sec "s3" "January 2027 (£0 / £500)";
        sec "s4" "February 2027 (£0 / £500)";
        sec "s5" "March 2027 (£0 / £500)";
        sec "s6" "April 2027 (£0 / £500)";
        sec "s7" "May 2027 (£0 / £500)";
        sec "s8" "June 2027 (£0 / £500)";
        sec "s9" "July 2027 (£0 / £500)";
        sec "s10" "August 2027 (£0 / £500)";
        sec "s11" "September 2027 (£0 / £500)";
        sec "s12" "October 2027 (£0 / £500)"];
     r_tasks := [] |}.

(** Two passes in a row, the second on the remote state the first one
    left: the commands of each. *)
Definition two_passes (r : remote) : option (list command * list command) :=
  match pass now0 (u "p") uuid_n repr_integral r with
  | None => None
  | Some (cmds1, r1) =>
    match pass now0 (u "p") uuid_n repr_integral r1 with
    | None => None
    | Some (cmds2, _) => Some (cmds1, cmds2)
    end
  end.

(** ** Notions used in the further properties *)

(** The name [add_missing_sections] gives to the section of label [L]. *)
Definition default_name (L : str) : str :=
  L ++ u " (£0.00 / £" ++ str_of_Z MONTHLY_BUDGET ++ u ")".

(** One turn of the loop of [add_missing_sections]. *)
Definition create_step (project_id : str) (uuid4 : nat -> str)
    (expected_section : str) (cmds : list command) : M (list command) :=
  secs <- get_sections ;;
  if negb (existsb (fun s => matches (s_name s) expected_section) secs)
  then
    let name := expected_section ++ u " (£0.00 / £"
                  ++ str_of_Z MONTHLY_BUDGET ++ u ")" in
    temp_id <- random_uuid uuid4 ;;
    arg_temp_id <- random_uuid uuid4 ;;
    cmd <- add_section uuid4 name project_id arg_temp_id ;;
    append_section {| s_id := temp_id; s_name := name;
                      s_project_id := project_id |} ;;;
    ret (cmds ++ [cmd])
  else ret cmds.

(** Does some section of [secs] carry the label [L]? *)
Definition carried (secs : list section) (L : str) : bool :=
  existsb (fun s => matches (s_name s) L) secs.

(** The labels of [expected] that no section of [secs] carries. *)
Definition missing_labels (secs : list section) (expected : list str)
    : list str :=
  filter (fun L => negb (carried secs L)) expected.

(** The create commands for the labels [ls] when [n] UUIDs were drawn
    before, and the section records appended with them. *)
Fixpoint create_cmds (project_id : str) (uuid4 : nat -> str) (n : nat)
    (ls : list str) : list command :=
  match ls with
  | [] => []
  | L :: ls' =>
    section_add (uuid4 (n + 1)) (uuid4 (n + 2)) (default_name L) project_id
    :: create_cmds project_id uuid4 (n + 3) ls'
  end.

Fixpoint create_secs (project_id : str) (uuid4 : nat -> str) (n : nat)
    (ls : list str) : list section :=
  match ls with
  | [] => []
  | L :: ls' =>
    {| s_id := uuid4 n; s_name := default_name L;
       s_project_id := project_id |}
    :: create_secs project_id uuid4 (n + 3) ls'
  end.

(** A section that carries no label of [expected]. *)
Definition unwanted (expected : list str) (s : section) : bool :=
  negb (existsb (fun e => matches (s_name s) e) expected).

Definition is_move (c : command) : bool :=
  match c with item_move _ _ _ => true | _ => false end.

Definition is_reorder (c : command) : bool :=
  match c with section_reorder _ _ => true | _ => false end.

(** The first three code points of the lowered label, which tell the
    labels of a schedule apart. *)
Definition key (L : str) : str := firstn 3 (lower L).

(** The labels of a list are told apart by their keys. *)
Definition keyed (ls : list str) : Prop :=
  NoDup (map key ls) /\ Forall (fun L => List.length (key L) = 3) ls.

(** The world [w] after [n] more UUIDs were drawn and the sections
    [added] appended. *)
Definition grown (n : nat) (added : list section) (w : world) : world :=
  {| drawn := drawn w + n; sections := sections w ++ added; tasks := tasks w |}.

(** A float that is no negative number (it may be [nan]): its sign bit is
    clear. *)
Definition non_negative (f : float64) : bool :=
  match f with
  | S754_zero s | S754_infinity s | S754_finite s _ _ => negb s
  | S754_nan => true
  end.

Definition num_non_negative (a : num) : bool :=
  match a with
  | PyInt z => (0 <=? z)%Z
  | PyFloat f => non_negative f
  end.

(** The first day of the month that comes [k] months after the month of
    [now]. *)
Definition rolling (now : datetime) (k : Z) : datetime :=
  {| year := if (month now + k <=? 12)%Z then year now
             else (year now + 1)%Z;
     month := ((month now - 1 + k) mod 12 + 1)%Z;
     day := 1 |}.

(** A word of [str.split()]: not empty, without white space. *)
Definition nospace (w : str) : bool := forallb (fun c => negb (isspace c)) w.

Definition word (w : str) : bool :=
  match w with
  | [] => false
  | _ :: _ => nospace w
  end.

(** The shape of a lowered label: one word, or two words with a space
    between them. *)
Definition label_shaped (p : str) : Prop :=
  word p = true
  \/ exists w1 w2, p = w1 ++ [space] ++ w2
                   /\ word w1 = true /\ word w2 = true.

(** The title of the section of label [L] when no task is assigned to
    it. *)
Definition fresh_title (L : str) : str :=
  if Str.eqb L (u "Backlog") then u "Backlog"
  else L ++ u " (£" ++ str_of_Z 0 ++ u " / £" ++ str_of_Z MONTHLY_BUDGET
         ++ u ")".

(** What the titles read of a task: its section and its content. *)
Definition priced (t : task) : option str * str :=
  (t_section_id t, t_content t).

(** A label of a schedule: "Backlog", or the label of a date. *)
Definition plain_label (L : str) : Prop :=
  L = u "Backlog"
  \/ exists d, (1 <= month d <= 12)%Z /\ L = strftime_B_Y d.

(** The tasks of [w_spend] with the other state: the open one completed,
    the completed one open and deleted. *)
Definition tasks_flipped : list task :=
  [{| t_id := u "t9"; t_content := u "TV £550";
      t_section_id := Some (u "cur"); t_checked := true;
      t_is_deleted := false; t_project_id := u "p" |};
   {| t_id := u "t8"; t_content := u "Trip £600";
      t_section_id := Some (u "dec"); t_checked := false;
      t_is_deleted := true; t_project_id := u "p" |}].

(** The commands of a pass, none when it raises. *)
Definition commands_of (r : result (list command) * world) : list command :=
  match fst r with
  | inr cmds => cmds
  | inl _ => []
  end.

(** [get_state], the selection of line 141:
    [[s for s in sections if s['project_id'] == project_id]]. *)
Definition project_sections (project_id : str) (secs : list section)
    : list section :=
  filter (fun s => Str.eqb (s_project_id s) project_id) secs.

(** The project a command creates a section in. *)
Definition project_of (c : command) : option str :=
  match c with
  | section_add _ _ _ proj => Some proj
  | _ => None
  end.

(** * Properties *)

(** ** Running a computation *)

Lemma bind_run {A B} (c : M A) (k : A -> M B) (w : world) :
  bind c k w
  = match c w with
    | (inr a, w') => k a w'
    | (inl e, w') => (inl e, w')
    end.
Proof. reflexivity. Qed.

Lemma lift_run {A} (r : result A) (w : world) : lift r w = (r, w).
Proof. reflexivity. Qed.

Lemma ret_run {A} (a : A) (w : world) : ret a w = (inr a, w).
Proof. reflexivity. Qed.

Lemma raise_run {A} (e : exn) (w : world) : @raise A e w = (inl e, w).
Proof. reflexivity. Qed.

Lemma rename_section_run uuid4 id name w :
  rename_section uuid4 id name w
  = (inr (section_update (uuid4 (drawn w)) id name),
     with_drawn (S (drawn w)) w).
Proof. reflexivity. Qed.

Lemma with_drawn_same (w : world) : with_drawn (drawn w) w = w.
Proof. destruct w. reflexivity. Qed.

(** ** Strings *)

Lemma eqb_eq (a b : str) : Str.eqb a b = true <-> a = b.
Proof.
  revert b. induction a as [|x a IH]; destruct b as [|y b]; cbn [Str.eqb];
    try (split; (reflexivity || discriminate)).
  rewrite andb_true_iff, N.eqb_eq, IH. split.
  - intros [-> ->]. reflexivity.
  - intros H. injection H as -> ->. split; reflexivity.
Qed.

Lemma eqb_neq (a b : str) : Str.eqb a b = false <-> a <> b.
Proof.
  rewrite <- eqb_eq. destruct (Str.eqb a b); split; congruence.
Qed.

Lemma neqb_dec (a b : str) :
  negb (Str.eqb a b) = if str_eq_dec a b then false else true.
Proof.
  destruct (str_eq_dec a b) as [E|E].
  - apply eqb_eq in E. rewrite E. reflexivity.
  - apply eqb_neq in E. rewrite E. reflexivity.
Qed.

Lemma opt_eqb_eq (a b : option str) : opt_eqb a b = true <-> a = b.
Proof.
  destruct a as [x|], b as [y|]; cbn [opt_eqb];
    try (split; (reflexivity || discriminate)).
  rewrite eqb_eq. split.
  - intros ->. reflexivity.
  - intros H. injection H as ->. reflexivity.
Qed.

Lemma replace_app c r a b :
  replace c r (a ++ b) = replace c r a ++ replace c r b.
Proof. unfold replace. apply flat_map_app. Qed.

Lemma replace_absent c r s :
  forallb (fun x => negb (x =? c)%N) s = true -> replace c r s = s.
Proof.
  unfold replace. induction s as [|x s IH]; cbn [forallb flat_map].
  - reflexivity.
  - rewrite andb_true_iff. intros [Hx Hs].
    destruct (x =? c)%N; [discriminate|].
    cbn [app]. rewrite IH by exact Hs. reflexivity.
Qed.

Lemma no_paren_each s :
  no_paren s = true ->
  forallb (fun x => negb (x =? lparen)%N) s = true
  /\ forallb (fun x => negb (x =? rparen)%N) s = true.
Proof.
  unfold no_paren. induction s as [|x s IH]; cbn [forallb].
  - split; reflexivity.
  - rewrite andb_true_iff. intros [Hx Hs]. destruct (IH Hs) as [H1 H2].
    rewrite H1, H2. rewrite negb_true_iff, orb_false_iff in Hx.
    destruct Hx as [-> ->]. split; reflexivity.
Qed.

(** ** The cost of a list of tasks *)

Lemma add_first_price_contribution (t : task) (total : num) :
  add_first_price (split (trimmed_desc t)) total
  = match contribution t with
    | inl e => inl e
    | inr c => inr (add_contribution total c)
    end.
Proof.
  unfold contribution.
  induction (split (trimmed_desc t)) as [|w ws IH];
    cbn [add_first_price find].
  - reflexivity.
  - destruct (startswith w [pound]).
    + destruct (float_of_str (skipn 1 w)); reflexivity.
    + exact IH.
Qed.

Lemma contribution_error (t : task) (e : exn) :
  contribution t = inl e -> e = ValueError.
Proof.
  unfold contribution.
  destruct (find _ _) as [w|]; [|discriminate].
  destruct (float_of_str _); [discriminate|].
  intros H; injection H as <-; reflexivity.
Qed.

Lemma total_cost_from_sum (ts : list task) :
  forall (cs : list (option float64)) (total : num),
    Forall2 (fun t c => contribution t = inr c) ts cs ->
    total_cost_from ts total = inr (fold_left add_contribution cs total).
Proof.
  induction ts as [|t ts IH]; intros cs total H; inversion H; subst;
    cbn [total_cost_from fold_left].
  - reflexivity.
  - rewrite add_first_price_contribution.
    match goal with Hc : contribution t = _ |- _ => rewrite Hc end.
    apply IH. assumption.
Qed.

Lemma total_cost_from_raises (ts : list task) :
  forall total,
    Exists (fun t => contribution t = inl ValueError) ts ->
    total_cost_from ts total = inl ValueError.
Proof.
  induction ts as [|t ts IH]; intros total H; inversion H; subst;
    cbn [total_cost_from]; rewrite add_first_price_contribution.
  - match goal with Hc : contribution t = _ |- _ => rewrite Hc end.
    reflexivity.
  - destruct (contribution t) as [e|c] eqn:Hc.
    + apply contribution_error in Hc. subst e. reflexivity.
    + apply IH. assumption.
Qed.

Lemma contributions_exist (ts : list task) :
  Forall (fun t => contribution t <> inl ValueError) ts ->
  exists cs, Forall2 (fun t c => contribution t = inr c) ts cs.
Proof.
  induction 1 as [|t ts Ht _ [cs IH]].
  - exists []. constructor.
  - destruct (contribution t) as [e|c] eqn:Hc.
    + apply contribution_error in Hc as He. subst e. contradiction.
    + exists (c :: cs). constructor; assumption.
Qed.

(** C6.  [_get_total_cost] on the reference contents: "Buy milk £3.50 and
    eggs" gives the float 3.5 (7 * 2^-1); "No price here" gives the integer
    0; "£10 £20" gives 10.0, the second price being ignored; "Rent:
    £450.00!!" is stripped to "Rent £450.00" and gives 450.0.  Over several
    tasks the result is the sum, taken in the order of the tasks from the
    integer 0, of what each task contributes: the value of its first word
    that starts with the pound sign, or nothing. *)
Theorem get_total_cost_examples :
  (exists f, _get_total_cost [task_of_content "Buy milk £3.50 and eggs"]
             = inr (PyFloat f) /\ float_is f 7 (-1))
  /\ _get_total_cost [task_of_content "No price here"] = inr (PyInt 0)
  /\ (exists f, _get_total_cost [task_of_content "£10 £20"] = inr (PyFloat f)
                /\ float_is f 10 0)
  /\ trimmed_desc (task_of_content "Rent: £450.00!!") = u "Rent £450.00"
  /\ (exists f, _get_total_cost [task_of_content "Rent: £450.00!!"]
                = inr (PyFloat f) /\ float_is f 450 0)
  /\ (forall ts cs,
        Forall2 (fun t c => contribution t = inr c) ts cs ->
        _get_total_cost ts = inr (fold_left add_contribution cs (PyInt 0))).
Proof.
  split; [|split; [|split; [|split; [|split]]]].
  - exists (of_decimal 350 (-2)). split; vm_compute; reflexivity.
  - vm_compute; reflexivity.
  - exists (of_decimal 10 0). split; vm_compute; reflexivity.
  - vm_compute; reflexivity.
  - exists (of_decimal 45000 (-2)). split; vm_compute; reflexivity.
  - intros ts cs H. apply total_cost_from_sum. exact H.
Qed.

Lemma get_total_cost_examples_witness :
  _get_total_cost
    [task_of_content "Buy milk £3.50 and eggs";
     task_of_content "No price here"; task_of_content "£10 £20"]
  = inr (PyFloat (of_decimal 135 (-1))).
Proof.
  rewrite (proj2 (proj2 (proj2 (proj2 (proj2 get_total_cost_examples))))
             [task_of_content "Buy milk £3.50 and eggs";
              task_of_content "No price here"; task_of_content "£10 £20"]
             [Some (of_decimal 35 (-1)); None; Some (of_decimal 10 0)]).
  - vm_compute; reflexivity.
  - repeat constructor.
Defined.

(** C10.  [_get_total_cost] is partial: on "Fee £TBD" and on a bare "£" it
    raises [ValueError]; it returns a total when in every task the first
    word that starts with the pound sign (if there is one) has a remainder
    that [float] accepts, and raises [ValueError] when some task fails
    that. *)
Theorem get_total_cost_partial :
  _get_total_cost [task_of_content "Fee £TBD"] = inl ValueError
  /\ _get_total_cost [task_of_content "£"] = inl ValueError
  /\ (forall ts,
        Forall (fun t => contribution t <> inl ValueError) ts ->
        exists total, _get_total_cost ts = inr total)
  /\ (forall ts,
        Exists (fun t => contribution t = inl ValueError) ts ->
        _get_total_cost ts = inl ValueError).
Proof.
  split; [vm_compute; reflexivity|].
  split; [vm_compute; reflexivity|].
  split.
  - intros ts H. destruct (contributions_exist H) as [cs Hcs].
    eexists. apply total_cost_from_sum. exact Hcs.
  - intros ts H. apply total_cost_from_raises. exact H.
Qed.

Lemma get_total_cost_partial_witness :
  (exists total,
     _get_total_cost [task_of_content "Rent: £450.00!!";
                      task_of_content "No price here"] = inr total)
  /\ _get_total_cost [task_of_content "Rent: £450.00!!";
                      task_of_content "Fee £TBD"] = inl ValueError.
Proof.
  split.
  - apply (proj1 (proj2 (proj2 get_total_cost_partial))).
    repeat constructor; vm_compute; discriminate.
  - apply (proj2 (proj2 (proj2 get_total_cost_partial))).
    apply Exists_cons_tl. apply Exists_cons_hd. vm_compute; reflexivity.
Defined.

(** ** The schedule *)

Lemma map_result_all {A B} (f : A -> result B) (g : A -> B) (xs : list A) :
  (forall x, In x xs -> f x = inr (g x)) ->
  map_result f xs = inr (map g xs).
Proof.
  induction xs as [|x xs IH]; intros H; cbn [map_result map].
  - reflexivity.
  - rewrite (H x (or_introl eq_refl)), IH; [reflexivity|].
    intros y Hy. apply H. right. exact Hy.
Qed.

Lemma leb_true (a b : Z) : (a <= b)%Z -> (a <=? b)%Z = true.
Proof. apply Z.leb_le. Qed.

Lemma make_first (y m : Z) :
  (MINYEAR <= y <= MAXYEAR)%Z -> (1 <= m <= 12)%Z ->
  make y m 1 = inr {| year := y; month := m; day := 1 |}.
Proof.
  intros [Hy1 Hy2] [Hm1 Hm2]. unfold make, validb, days_in_month.
  cbn [year month day].
  rewrite (leb_true Hy1), (leb_true Hy2), (leb_true Hm1), (leb_true Hm2).
  cbn [andb].
  destruct (m =? 2)%Z; [destruct (is_leap y); reflexivity|].
  destruct ((m =? 4) || (m =? 6) || (m =? 9) || (m =? 11))%Z; reflexivity.
Qed.

Lemma months_range : range 1 13 = months.
Proof. reflexivity. Qed.

Lemma in_months (m : Z) : In m months <-> (1 <= m <= 12)%Z.
Proof. unfold months. cbn [In]. lia. Qed.

(** The loop of [_get_expected_sections] follows the rule of the claim. *)
Lemma year_of_month_rolling now m : year_of_month now m = rolling_year now m.
Proof. reflexivity. Qed.

Lemma rolling_year_bounds (now : datetime) (m : Z) :
  schedulable now -> (1 <= m <= 12)%Z ->
  (MINYEAR <= rolling_year now m <= MAXYEAR)%Z.
Proof.
  intros [[Hy [Hm _]] Hs] Hm'. unfold rolling_year.
  destruct (Z.eqb_spec m (month now)); [exact Hy|].
  destruct (Z.ltb_spec m (month now)); [|exact Hy].
  unfold MINYEAR, MAXYEAR in *. lia.
Qed.

Lemma expected_dts_schedulable (now : datetime) :
  schedulable now ->
  expected_dts now = inr (map (first_of_month now) months).
Proof.
  intros H. unfold expected_dts. rewrite months_range.
  apply map_result_all. intros m Hm. apply in_months in Hm.
  rewrite year_of_month_rolling. apply make_first; [|exact Hm].
  apply rolling_year_bounds; assumption.
Qed.

(** The order of dates is kept when all years move by the same amount, so
    sorting can be studied on the months of year 0. *)
Lemma leb_shift k a b : leb (shift k a) (shift k b) = leb a b.
Proof.
  unfold leb, shift; cbn [year month day].
  replace (year a + k <? year b + k)%Z with (year a <? year b)%Z.
  2:{ destruct (Z.ltb_spec (year a) (year b)),
               (Z.ltb_spec (year a + k) (year b + k)); (reflexivity || lia). }
  replace (year a + k =? year b + k)%Z with (year a =? year b)%Z.
  2:{ destruct (Z.eqb_spec (year a) (year b)),
               (Z.eqb_spec (year a + k) (year b + k)); (reflexivity || lia). }
  reflexivity.
Qed.

Lemma insert_shift k d l :
  insert (shift k d) (map (shift k) l) = map (shift k) (insert d l).
Proof.
  induction l as [|x l IH]; cbn [insert map].
  - reflexivity.
  - rewrite leb_shift. destruct (leb d x); cbn [map]; [reflexivity|].
    rewrite IH. reflexivity.
Qed.

Lemma sort_shift k l : sort (map (shift k) l) = map (shift k) (sort l).
Proof.
  unfold sort. induction l as [|x l IH]; cbn [fold_right map].
  - reflexivity.
  - rewrite IH. apply insert_shift.
Qed.

Lemma increasing_shift k l : increasing (map (shift k) l) = increasing l.
Proof.
  induction l as [|a [|b l] IH]; try reflexivity.
  cbn [increasing map] in *. unfold ltb at 1.
  rewrite leb_shift, IH. reflexivity.
Qed.

Lemma first_of_month_shift (now : datetime) (m : Z) :
  first_of_month now m
  = shift (year now) (first_of_month (year0 (month now)) m).
Proof.
  unfold first_of_month, shift, rolling_year, year0; cbn [year month day].
  f_equal.
  destruct (m =? month now)%Z; [lia|]. destruct (m <? month now)%Z; lia.
Qed.

Lemma sorted_dts (now : datetime) :
  sort (map (first_of_month now) months)
  = map (shift (year now))
      (sort (map (first_of_month (year0 (month now))) months)).
Proof.
  rewrite <- sort_shift, map_map. f_equal.
  apply map_ext. intros m. apply first_of_month_shift.
Qed.

Lemma sort_year0 (c : Z) :
  In c months ->
  exists tl,
    sort (map (first_of_month (year0 c)) months) = year0 c :: tl
    /\ List.length tl = 11
    /\ increasing (sort (map (first_of_month (year0 c)) months)) = true.
Proof.
  unfold months at 1. cbn [In].
  intros H;
    repeat (destruct H as [<- | H];
            [eexists; repeat split; vm_compute; reflexivity|]).
  contradiction.
Qed.

Lemma strftime_shift (now : datetime) :
  strftime_B_Y (shift (year now) (year0 (month now))) = strftime_B_Y now.
Proof.
  unfold strftime_B_Y, shift, year0; cbn [year month day].
  rewrite Z.add_0_l. reflexivity.
Qed.

Lemma expected_sections_of_dts (now : datetime) (dts : list datetime) :
  expected_dts now = inr dts ->
  _get_expected_sections now
  = inr (firstn 1 (map strftime_B_Y (sort dts)) ++ [u "Backlog"]
         ++ skipn 1 (map strftime_B_Y (sort dts))).
Proof. unfold _get_expected_sections. intros ->. reflexivity. Qed.

Lemma schedulable_now0 : schedulable now0.
Proof. unfold schedulable, valid, now0, MINYEAR, MAXYEAR; cbn. lia. Qed.

Lemma schedule_shape (now : datetime) :
  schedulable now ->
  exists dts rest,
    expected_dts now = inr dts
    /\ dts = map (fun m => {| year := rolling_year now m; month := m;
                             day := 1 |})
               [1; 2; 3; 4; 5; 6; 7; 8; 9; 10; 11; 12]%Z
    /\ increasing (sort dts) = true
    /\ _get_expected_sections now
       = inr (strftime_B_Y now :: u "Backlog" :: rest)
    /\ rest = map strftime_B_Y (skipn 1 (sort dts))
    /\ List.length rest = 11.
Proof.
  intros H.
  pose proof (expected_dts_schedulable H) as Hdts.
  destruct H as [[_ [Hm _]] _].
  destruct (sort_year0 (proj2 (in_months _) Hm)) as [tl [Hsort [Hlen Hinc]]].
  exists (map (first_of_month now) months).
  exists (map strftime_B_Y (skipn 1 (sort (map (first_of_month now) months)))).
  split; [exact Hdts|].
  split; [reflexivity|].
  split; [rewrite sorted_dts, increasing_shift; exact Hinc|].
  split.
  - rewrite (expected_sections_of_dts _ Hdts), sorted_dts, Hsort.
    cbn [map firstn skipn app]. rewrite strftime_shift. reflexivity.
  - split; [reflexivity|].
    rewrite sorted_dts, Hsort. cbn [map skipn].
    rewrite !length_map. exact Hlen.
Qed.

(** C3, as amended.  On every date on which the first of each month of
    the rolling year is a [datetime] (a year below 9999, or January), the
    builder gives month [m] of 1..12 the current year if [m] is the current
    month, the next year if [m] is below it, and the current year
    otherwise; the twelve dates, sorted, are strictly increasing; and the
    result has 13 labels: the label of the current month and year, then
    "Backlog", then the labels of the eleven other dates in order. *)
Theorem expected_sections_schedule (now : datetime) :
  schedulable now ->
  exists dts rest,
    expected_dts now = inr dts
    /\ dts = map (fun m => {| year := rolling_year now m; month := m;
                             day := 1 |})
               [1; 2; 3; 4; 5; 6; 7; 8; 9; 10; 11; 12]%Z
    /\ increasing (sort dts) = true
    /\ _get_expected_sections now
       = inr (strftime_B_Y now :: u "Backlog" :: rest)
    /\ rest = map strftime_B_Y (skipn 1 (sort dts))
    /\ List.length rest = 11.
Proof. exact (@schedule_shape now). Qed.

Lemma expected_sections_schedule_witness :
  exists dts rest,
    expected_dts now0 = inr dts
    /\ dts = map (fun m => {| year := rolling_year now0 m; month := m;
                             day := 1 |})
               [1; 2; 3; 4; 5; 6; 7; 8; 9; 10; 11; 12]%Z
    /\ increasing (sort dts) = true
    /\ _get_expected_sections now0
       = inr (strftime_B_Y now0 :: u "Backlog" :: rest)
    /\ rest = map strftime_B_Y (skipn 1 (sort dts))
    /\ List.length rest = 11.
Proof.
  apply (@expected_sections_schedule now0).
  unfold schedulable, valid, now0, MINYEAR, MAXYEAR; cbn. lia.
Defined.

(** C3 as stated fails on 3 February 9999: January is given the year
    10000, which [datetime] refuses, and no schedule is returned. *)
Lemma expected_sections_year_9999 :
  valid now_9999 /\ _get_expected_sections now_9999 = inl ValueError.
Proof.
  split.
  - unfold valid, now_9999, MINYEAR, MAXYEAR; cbn. lia.
  - vm_compute; reflexivity.
Qed.

Lemma expected_sections_keys (now : datetime) :
  schedulable now ->
  exists l,
    _get_expected_sections now = inr l
    /\ List.length l = 13
    /\ NoDup (map (firstn 3) l).
Proof.
  intros H.
  pose proof (expected_dts_schedulable H) as Hdts.
  destruct H as [[_ [Hm _]] _].
  eexists. split.
  { rewrite (expected_sections_of_dts _ Hdts), sorted_dts; reflexivity. }
  apply in_months in Hm. unfold months in Hm. cbn [In] in Hm.
  repeat (destruct Hm as [<- | Hm];
          [split; [vm_compute; reflexivity|];
           lazy;
           repeat (constructor; [cbn [In]; intuition discriminate|]);
           constructor|]).
  contradiction.
Qed.

(** C4, as amended.  On every date on which the schedule can be built it
    has 13 labels, no two of them equal; the label of the current month is
    its first element and occurs once. *)
Theorem expected_sections_distinct (now : datetime) :
  schedulable now ->
  exists l,
    _get_expected_sections now = inr l
    /\ List.length l = 13
    /\ NoDup l
    /\ hd_error l = Some (strftime_B_Y now)
    /\ count_occ str_eq_dec l (strftime_B_Y now) = 1.
Proof.
  intros H.
  destruct (expected_sections_keys H) as [l [Hl [Hlen Hnd]]].
  destruct (schedule_shape H) as [dts [rest [_ [_ [_ [Hl' _]]]]]].
  exists l. apply NoDup_map_inv in Hnd.
  rewrite Hl in Hl'. injection Hl' as ->.
  repeat split; try assumption.
  apply NoDup_count_occ'; [exact Hnd|]. left. reflexivity.
Qed.

Lemma expected_sections_distinct_witness :
  exists l,
    _get_expected_sections now0 = inr l
    /\ List.length l = 13
    /\ NoDup l
    /\ hd_error l = Some (strftime_B_Y now0)
    /\ count_occ str_eq_dec l (strftime_B_Y now0) = 1.
Proof.
  apply (@expected_sections_distinct now0).
  unfold schedulable, valid, now0, MINYEAR, MAXYEAR; cbn. lia.
Defined.

(** C4 as stated fails on 3 November 2026: the schedule has 13 labels, not
    14, and "November 2026" occurs in it once, not twice. *)
Lemma expected_sections_not_14 :
  exists l,
    _get_expected_sections now0 = inr l
    /\ List.length l <> 14
    /\ count_occ str_eq_dec l (strftime_B_Y now0) <> 2.
Proof.
  destruct (expected_sections_keys schedulable_now0) as [l [Hl [Hlen Hnd]]].
  exists l. split; [exact Hl|]. split; [rewrite Hlen; discriminate|].
  apply NoDup_map_inv in Hnd.
  assert (Hin : In (strftime_B_Y now0) l).
  { vm_compute in Hl. injection Hl as <-. left. vm_compute. reflexivity. }
  rewrite (proj1 (NoDup_count_occ' str_eq_dec l) Hnd _ Hin). discriminate.
Qed.

(** ** Titles *)

Lemma current_section_first (now : datetime) (secs : list section) :
  _get_current_section_id now secs
  = option_map s_id
      (find (fun s => matches (s_name s) (strftime_B_Y now)) secs).
Proof.
  induction secs as [|s secs IH]; cbn [_get_current_section_id find].
  - reflexivity.
  - destruct (matches (s_name s) (strftime_B_Y now)); [reflexivity | exact IH].
Qed.

Lemma mark_overspend_no_paren s : no_paren s = true -> mark_overspend s = s.
Proof.
  intros H. destruct (no_paren_each s H) as [H1 H2]. unfold mark_overspend.
  rewrite (@replace_absent _ _ _ H1). apply replace_absent. exact H2.
Qed.

Lemma mark_overspend_app a b :
  mark_overspend (a ++ b) = mark_overspend a ++ mark_overspend b.
Proof. unfold mark_overspend. rewrite !replace_app. reflexivity. Qed.

Lemma mark_overspend_plain_title fr name cost :
  no_paren (join [space] (firstn 2 (split name))) = true ->
  no_paren (str_of_num fr cost) = true ->
  mark_overspend (plain_title fr name cost)
  = join [space] (firstn 2 (split name))
    ++ u " !!! £" ++ str_of_num fr cost ++ u " / £"
    ++ str_of_Z MONTHLY_BUDGET ++ u " !!!".
Proof.
  intros Hw Hc. unfold plain_title.
  rewrite !mark_overspend_app.
  rewrite (@mark_overspend_no_paren _ Hw), (@mark_overspend_no_paren _ Hc).
  reflexivity.
Qed.

(** The title of a section that is not in the overspend case. *)
Lemma expected_title_plain now fr secs ts s cost :
  startswith (s_name s) (u "Backlog") = false ->
  _get_total_cost
    (filter (fun t => opt_eqb (t_section_id t) (Some (s_id s))) ts)
  = inr cost ->
  ~ (_get_current_section_id now secs = Some (s_id s)
     /\ gt_int cost MONTHLY_BUDGET = true) ->
  expected_title now fr secs ts s = inr (plain_title fr (s_name s) cost).
Proof.
  intros H Hc Hn. unfold expected_title. rewrite H, Hc.
  destruct (opt_eqb (Some (s_id s)) (_get_current_section_id now secs)) eqn:E;
    [|reflexivity].
  destruct (gt_int cost MONTHLY_BUDGET) eqn:G; [|reflexivity].
  exfalso. apply Hn. apply opt_eqb_eq in E.
  split; [symmetry; exact E | reflexivity].
Qed.

(** The title of a section in the overspend case. *)
Lemma expected_title_marked now fr secs ts s cost :
  startswith (s_name s) (u "Backlog") = false ->
  _get_total_cost
    (filter (fun t => opt_eqb (t_section_id t) (Some (s_id s))) ts)
  = inr cost ->
  _get_current_section_id now secs = Some (s_id s) ->
  gt_int cost MONTHLY_BUDGET = true ->
  expected_title now fr secs ts s
  = inr (mark_overspend (plain_title fr (s_name s) cost)).
Proof.
  intros H Hc Hcur Hgt. unfold expected_title. rewrite H, Hc, Hcur, Hgt.
  rewrite (proj2 (opt_eqb_eq _ _) eq_refl). reflexivity.
Qed.

(** The loop of [set_section_titles] when every title can be computed. *)
Lemma titles_loop (now : datetime) (uuid4 : nat -> str) (fr : float64 -> str)
    (all : list section) (ts : list task) :
  forall (l : list section) (titles : list str) (cmds : list command)
         (w : world),
    map_result (expected_title now fr all ts) l = inr titles ->
    exists cmds',
      for_each l
        (fun s cmds =>
           title <- lift (expected_title now fr all ts s) ;;
           if negb (Str.eqb title (s_name s))
           then cmd <- rename_section uuid4 (s_id s) title ;;
                ret (cmds ++ [cmd])
           else ret cmds)
        cmds w
      = (inr (cmds ++ cmds'), with_drawn (drawn w + List.length cmds') w)
      /\ forallb is_rename cmds' = true
      /\ map rename_of cmds' = map Some (due_renames l titles).
Proof.
  induction l as [|s l IH]; intros titles cmds w H; cbn [map_result] in H.
  - injection H as <-. exists []. rewrite app_nil_r.
    cbn [for_each List.length]. rewrite Nat.add_0_r, with_drawn_same.
    repeat split.
  - destruct (expected_title now fr all ts s) as [e|title] eqn:Ht;
      [discriminate|].
    destruct (map_result _ l) as [e|titles'] eqn:Hl; [discriminate|].
    injection H as <-.
    cbn [for_each]. rewrite !bind_run, lift_run, Ht.
    unfold due_renames. cbn [combine filter fst snd].
    rewrite <- neqb_dec.
    destruct (negb (Str.eqb title (s_name s))).
    + rewrite bind_run, rename_section_run, ret_run.
      destruct (IH titles'
                  (cmds ++ [section_update (uuid4 (drawn w)) (s_id s) title])
                  (with_drawn (S (drawn w)) w) eq_refl)
        as [cmds' [Hrun [Hall Hmap]]].
      exists (section_update (uuid4 (drawn w)) (s_id s) title :: cmds').
      split; [|split].
      * rewrite Hrun. rewrite <- app_assoc. cbn [app List.length].
        unfold with_drawn. cbn [drawn sections tasks].
        rewrite Nat.add_succ_r. reflexivity.
      * cbn [forallb is_rename]. exact Hall.
      * cbn [map rename_of fst snd]. rewrite Hmap. reflexivity.
    + rewrite ret_run.
      destruct (IH titles' cmds w eq_refl) as [cmds' [Hrun [Hall Hmap]]].
      exists cmds'. split; [exact Hrun | split; [exact Hall | exact Hmap]].
Qed.

(** The same loop when some title cannot be computed: the exception of the
    first such section leaves the loop. *)
Lemma titles_loop_raises (now : datetime) (uuid4 : nat -> str)
    (fr : float64 -> str) (all : list section) (ts : list task) :
  forall (l : list section) (e : exn) (cmds : list command) (w : world),
    map_result (expected_title now fr all ts) l = inl e ->
    fst (for_each l
           (fun s cmds =>
              title <- lift (expected_title now fr all ts s) ;;
              if negb (Str.eqb title (s_name s))
              then cmd <- rename_section uuid4 (s_id s) title ;;
                   ret (cmds ++ [cmd])
              else ret cmds)
           cmds w)
    = inl e.
Proof.
  induction l as [|s l IH]; intros e cmds w H; cbn [map_result] in H.
  - discriminate.
  - cbn [for_each]. rewrite !bind_run, lift_run.
    destruct (expected_title now fr all ts s) as [e'|title] eqn:Ht.
    + injection H as <-. reflexivity.
    + destruct (map_result _ l) as [e'|titles'] eqn:Hl; [|discriminate].
      injection H as <-.
      destruct (negb (Str.eqb title (s_name s))).
      * rewrite bind_run, rename_section_run, ret_run. apply IH. reflexivity.
      * rewrite ret_run. apply IH. reflexivity.
Qed.

Lemma set_section_titles_loop now uuid4 fr w :
  set_section_titles now uuid4 fr w
  = for_each (sections w)
      (fun s cmds =>
         title <- lift (expected_title now fr (sections w) (tasks w) s) ;;
         if negb (Str.eqb title (s_name s))
         then cmd <- rename_section uuid4 (s_id s) title ;;
              ret (cmds ++ [cmd])
         else ret cmds)
      [] w.
Proof. reflexivity. Qed.

(** C7, as amended.  A section whose name starts with "Backlog" has the
    expected title "Backlog".  Any other section, unless it is the
    current-month section with a cost above 500 (the overspend case of C8),
    has as expected title the first two words of its name, joined by a
    space, followed by " (£<cost> / £500)", where the cost is the total of
    all tasks whose section is this one, completed and deleted ones
    included.  When the title of every section can be computed,
    [set_section_titles] emits rename commands only, one for each section
    whose expected title is not its name, in the order of the sections and
    with that title; when the cost of some section raises, the call raises
    and emits nothing. *)
Theorem section_titles (now : datetime) (uuid4 : nat -> str)
    (fr : float64 -> str) (w : world) :
  (forall s,
      startswith (s_name s) (u "Backlog") = true ->
      expected_title now fr (sections w) (tasks w) s = inr (u "Backlog"))
  /\ (forall s cost,
        startswith (s_name s) (u "Backlog") = false ->
        _get_total_cost
          (filter (fun t => opt_eqb (t_section_id t) (Some (s_id s)))
             (tasks w))
        = inr cost ->
        ~ (_get_current_section_id now (sections w) = Some (s_id s)
           /\ gt_int cost MONTHLY_BUDGET = true) ->
        expected_title now fr (sections w) (tasks w) s
        = inr (join [space] (firstn 2 (split (s_name s)))
               ++ u " (£" ++ str_of_num fr cost ++ u " / £"
               ++ str_of_Z MONTHLY_BUDGET ++ u ")"))
  /\ (forall titles,
        map_result (expected_title now fr (sections w) (tasks w))
          (sections w) = inr titles ->
        exists cmds,
          set_section_titles now uuid4 fr w
          = (inr cmds, with_drawn (drawn w + List.length cmds) w)
          /\ forallb is_rename cmds = true
          /\ map rename_of cmds
             = map Some (due_renames (sections w) titles))
  /\ (forall e,
        map_result (expected_title now fr (sections w) (tasks w))
          (sections w) = inl e ->
        fst (set_section_titles now uuid4 fr w) = inl e).
Proof.
  split; [|split; [|split]].
  - intros s H. unfold expected_title. rewrite H. reflexivity.
  - intros s cost H Hc Hn. apply expected_title_plain; assumption.
  - intros titles H. rewrite set_section_titles_loop.
    destruct (@titles_loop now uuid4 fr _ _ _ _ [] w H) as [cmds Hcmds].
    exists cmds. exact Hcmds.
  - intros e H. rewrite set_section_titles_loop.
    apply titles_loop_raises. exact H.
Qed.

Lemma section_titles_witness :
  expected_title now0 repr_integral (sections w_spend) (tasks w_spend)
    (sec "bk" "Backlog (£0.00 / £500)") = inr (u "Backlog")
  /\ expected_title now0 repr_integral (sections w_spend) (tasks w_spend)
       (sec "dec" "December 2026 (£0 / £500)")
     = inr (u "December 2026 (£600.0 / £500)")
  /\ exists cmds,
       fst (set_section_titles now0 uuid_n repr_integral w_spend) = inr cmds
       /\ map rename_of cmds
          = [Some (u "cur", u "November 2026 !!! £550.0 / £500 !!!");
             Some (u "bk", u "Backlog");
             Some (u "dec", u "December 2026 (£600.0 / £500)")].
Proof.
  destruct (section_titles now0 uuid_n repr_integral w_spend)
    as [Hb [Hp [Hr _]]].
  split; [|split].
  - apply Hb. vm_compute; reflexivity.
  - rewrite (Hp (sec "dec" "December 2026 (£0 / £500)")
               (PyFloat (of_decimal 600 0))).
    + vm_compute; reflexivity.
    + vm_compute; reflexivity.
    + vm_compute; reflexivity.
    + intros [Hcur _]. vm_compute in Hcur. discriminate.
  - destruct (Hr [u "November 2026 !!! £550.0 / £500 !!!"; u "Backlog";
                  u "December 2026 (£600.0 / £500)"])
      as [cmds [Hrun [_ Hmap]]].
    + vm_compute; reflexivity.
    + exists cmds. split; [rewrite Hrun; reflexivity|].
      rewrite Hmap. vm_compute; reflexivity.
Defined.

(** C7 as stated fails in two places.  The section of the current month,
    with a cost of 550, has the title "November 2026 !!! £550.0 / £500
    !!!" and not the bracketed one.  And on a board where one task holds
    "£TBD", the title of the section "November 2026" differs from its
    name, yet the call raises [ValueError] and returns no rename. *)
Lemma section_titles_exceptions :
  (startswith (s_name (sec "cur" "November 2026 (£0 / £500)")) (u "Backlog")
   = false
   /\ _get_total_cost
        (filter (fun t => opt_eqb (t_section_id t) (Some (u "cur")))
           (tasks w_spend))
      = inr (PyFloat (of_decimal 550 0))
   /\ expected_title now0 repr_integral (sections w_spend) (tasks w_spend)
        (sec "cur" "November 2026 (£0 / £500)")
      = inr (u "November 2026 !!! £550.0 / £500 !!!")
   /\ u "November 2026 !!! £550.0 / £500 !!!"
      <> join [space]
           (firstn 2 (split (s_name (sec "cur" "November 2026 (£0 / £500)"))))
         ++ u " (£" ++ str_of_num repr_integral (PyFloat (of_decimal 550 0))
         ++ u " / £" ++ str_of_Z MONTHLY_BUDGET ++ u ")")
  /\ (expected_title now0 repr_integral (sections w_tbd) (tasks w_tbd)
        (sec "a" "November 2026")
      = inr (u "November 2026 (£0 / £500)")
      /\ u "November 2026 (£0 / £500)" <> s_name (sec "a" "November 2026")
      /\ fst (set_section_titles now0 uuid_n repr_integral w_tbd)
         = inl ValueError).
Proof.
  split.
  - split; [vm_compute; reflexivity|].
    split; [vm_compute; reflexivity|].
    split; [vm_compute; reflexivity|].
    vm_compute. discriminate.
  - split; [vm_compute; reflexivity|].
    split; [vm_compute; discriminate|].
    vm_compute; reflexivity.
Qed.

(** C8.  For a section whose name does not start with "Backlog": when its
    identifier is that of the current-month section and its cost is above
    500, the expected title is the plain title with every "(" replaced by
    "!!! " and every ")" by " !!!", which, the two words and the cost
    holding no bracket, is "<words> !!! £<cost> / £500 !!!"; when its
    identifier is not that of the current-month section, the expected
    title is the plain one in brackets, whatever the cost.  The
    current-month section is the first one whose name starts, case aside,
    with the label of the current month and year. *)
Theorem overspend_marker (now : datetime) (fr : float64 -> str)
    (secs : list section) (ts : list task) (s : section) (cost : num) :
  startswith (s_name s) (u "Backlog") = false ->
  _get_total_cost
    (filter (fun t => opt_eqb (t_section_id t) (Some (s_id s))) ts)
  = inr cost ->
  (_get_current_section_id now secs = Some (s_id s) ->
   gt_int cost MONTHLY_BUDGET = true ->
   expected_title now fr secs ts s
   = inr (replace rparen (u " !!!")
            (replace lparen (u "!!! ")
               (join [space] (firstn 2 (split (s_name s)))
                ++ u " (£" ++ str_of_num fr cost ++ u " / £"
                ++ str_of_Z MONTHLY_BUDGET ++ u ")")))
   /\ (no_paren (join [space] (firstn 2 (split (s_name s)))) = true ->
       no_paren (str_of_num fr cost) = true ->
       expected_title now fr secs ts s
       = inr (join [space] (firstn 2 (split (s_name s)))
              ++ u " !!! £" ++ str_of_num fr cost ++ u " / £"
              ++ str_of_Z MONTHLY_BUDGET ++ u " !!!")))
  /\ (_get_current_section_id now secs <> Some (s_id s) ->
      expected_title now fr secs ts s
      = inr (join [space] (firstn 2 (split (s_name s)))
             ++ u " (£" ++ str_of_num fr cost ++ u " / £"
             ++ str_of_Z MONTHLY_BUDGET ++ u ")"))
  /\ _get_current_section_id now secs
     = option_map s_id
         (find (fun s' => startswith (lower (s_name s'))
                            (lower (strftime_B_Y now))) secs).
Proof.
  intros H Hc. split; [|split].
  - intros Hcur Hgt.
    pose proof (@expected_title_marked now fr secs ts s cost H Hc Hcur Hgt) as Ht.
    split; [exact Ht|].
    intros Hw Hn. rewrite Ht, (@mark_overspend_plain_title fr _ cost Hw Hn).
    reflexivity.
  - intros Hcur. apply expected_title_plain; try assumption.
    intros [Hcur' _]. contradiction.
  - apply current_section_first.
Qed.

Lemma overspend_marker_witness :
  expected_title now0 repr_integral (sections w_spend) (tasks w_spend)
    (sec "cur" "November 2026 (£0 / £500)")
  = inr (u "November 2026 !!! £550.0 / £500 !!!").
Proof.
  destruct (@overspend_marker now0 repr_integral (sections w_spend)
              (tasks w_spend) (sec "cur" "November 2026 (£0 / £500)")
              (PyFloat (of_decimal 550 0)))
    as [Hm _].
  - vm_compute; reflexivity.
  - vm_compute; reflexivity.
  - destruct Hm as [_ Hm].
    + vm_compute; reflexivity.
    + vm_compute; reflexivity.
    + rewrite Hm.
      * vm_compute; reflexivity.
      * vm_compute; reflexivity.
      * vm_compute; reflexivity.
Defined.

(** ** Archival *)

(** The loop of [archive_unwanted_sections]: it passes over the sections
    that carry a label and stops with an exception at the first one that
    carries none; the state is not touched. *)
Lemma archive_loop (expected : list str) (ts : list task)
    (current_section_id : option str) :
  forall (l : list section) (cmds : list command) (w : world),
    exists r,
      for_each l
        (fun s cmds =>
           if negb (existsb (fun e => matches (s_name s) e) expected)
           then
             section_dot_name s ;;;
             cmds1 <- for_each (tasks_to_move ts s)
                        (fun t cmds =>
                           cmd <- self_move_task_to_section (t_id t)
                                    current_section_id ;;
                           ret (cmds ++ [cmd]))
                        cmds ;;
             cmd <- api_archive_section (s_id s) ;;
             ret (cmds1 ++ [cmd])
           else ret cmds)
        cmds w
      = (r, w)
      /\ (r = inr cmds \/ exists e, r = inl e).
Proof.
  induction l as [|s l IH]; intros cmds w; cbn [for_each].
  - exists (inr cmds). split; [reflexivity | left; reflexivity].
  - rewrite bind_run.
    destruct (negb (existsb (fun e => matches (s_name s) e) expected)).
    + rewrite bind_run. unfold section_dot_name. rewrite raise_run.
      eexists. split; [reflexivity | right; eexists; reflexivity].
    + rewrite ret_run. apply IH.
Qed.

Lemma archive_unwanted_sections_run (now : datetime) (w : world) :
  exists r,
    archive_unwanted_sections now w = (r, w)
    /\ (r = inr [] \/ exists e, r = inl e).
Proof.
  unfold archive_unwanted_sections. rewrite bind_run, lift_run.
  destruct (_get_expected_sections now) as [e|expected].
  - eexists. split; [reflexivity | right; eexists; reflexivity].
  - rewrite bind_run. unfold get_sections at 1.
    rewrite bind_run. unfold get_tasks at 1.
    apply archive_loop.
Qed.

(** Every board with a section that carries no label of the schedule makes
    the call raise at the log line. *)
Lemma archive_loop_unwanted (expected : list str) (ts : list task)
    (current_section_id : option str) :
  forall (l : list section) (cmds : list command) (w : world),
    existsb (fun s => negb (existsb (fun e => matches (s_name s) e) expected))
      l = true ->
    for_each l
      (fun s cmds =>
         if negb (existsb (fun e => matches (s_name s) e) expected)
         then
           section_dot_name s ;;;
           cmds1 <- for_each (tasks_to_move ts s)
                      (fun t cmds =>
                         cmd <- self_move_task_to_section (t_id t)
                                  current_section_id ;;
                         ret (cmds ++ [cmd]))
                      cmds ;;
           cmd <- api_archive_section (s_id s) ;;
           ret (cmds1 ++ [cmd])
         else ret cmds)
      cmds w
    = (inl (AttributeError "dict" "name"), w).
Proof.
  induction l as [|s l IH]; intros cmds w H; cbn [existsb] in H.
  - discriminate.
  - cbn [for_each]. rewrite bind_run.
    destruct (negb (existsb (fun e => matches (s_name s) e) expected)).
    + rewrite bind_run. unfold section_dot_name. rewrite raise_run.
      reflexivity.
    + rewrite ret_run. apply IH. exact H.
Qed.

Lemma archive_unwanted_sections_unwanted (now : datetime) (w : world)
    (expected : list str) :
  _get_expected_sections now = inr expected ->
  existsb (fun s => negb (existsb (fun e => matches (s_name s) e) expected))
    (sections w) = true ->
  archive_unwanted_sections now w = (inl (AttributeError "dict" "name"), w).
Proof.
  intros He Hu. unfold archive_unwanted_sections.
  rewrite bind_run, lift_run, He.
  rewrite bind_run. unfold get_sections at 1.
  rewrite bind_run. unfold get_tasks at 1.
  apply archive_loop_unwanted. exact Hu.
Qed.

(** C1 fails on the code.  On a board with a section "Misc" that holds two
    open tasks and a completed one, [tasks_to_move] selects the two open
    tasks, and the call then raises [AttributeError] at the log line
    ([section.name] on a [dict]) before any command is built. *)
Theorem archive_unwanted_sections_raises :
  map t_id (tasks_to_move (tasks w_archive) (sec "s1" "Misc"))
  = [u "t1"; u "t2"]
  /\ archive_unwanted_sections now0 w_archive
     = (inl (AttributeError "dict" "name"), w_archive).
Proof.
  split; [vm_compute; reflexivity|].
  eapply archive_unwanted_sections_unwanted; vm_compute; reflexivity.
Qed.

(** C9 fails on the code.  [archive_unwanted_sections] leaves the working
    set as it found it, and returns either no command or an exception: on
    the board above the three tasks of "Misc" still belong to "Misc", not
    to the section of the current month. *)
Theorem archive_unwanted_sections_moves_nothing :
  (forall now w,
      snd (archive_unwanted_sections now w) = w
      /\ (fst (archive_unwanted_sections now w) = inr []
          \/ exists e, fst (archive_unwanted_sections now w) = inl e))
  /\ map t_section_id
       (tasks (snd (archive_unwanted_sections now0 w_archive)))
     = [Some (u "s1"); Some (u "s1"); Some (u "s1")]
  /\ _get_current_section_id now0 (sections w_archive) = Some (u "cur").
Proof.
  split; [|split; vm_compute; reflexivity].
  intros now w.
  destruct (archive_unwanted_sections_run now w) as [r [-> Hr]].
  split; [reflexivity | exact Hr].
Qed.

(** ** Creation *)

(** C5 fails on the code.  On an empty board the pass creates the 13
    sections of the schedule; each command is named "<label> (£0.00 /
    £500)", but its temporary identifier is a UUID drawn after the one
    given to the section appended to the working set, so no command
    carries the identifier of a section of the working set. *)
Theorem add_missing_sections_temp_ids :
  exists cmds w',
    add_missing_sections now0 (u "p") uuid_n w_empty = (inr cmds, w')
    /\ map temp_id_of cmds
       = map (fun i => Some (uuid_n (3 * i + 1))) (seq 0 13)
    /\ map s_id (sections w') = map (fun i => uuid_n (3 * i)) (seq 0 13)
    /\ forallb
         (fun c =>
            forallb (fun s => negb (opt_eqb (temp_id_of c) (Some (s_id s))))
              (sections w'))
         cmds = true.
Proof.
  eexists. eexists. split; [vm_compute; reflexivity|].
  repeat split; vm_compute; reflexivity.
Qed.

(** ** Two passes in a row *)

(** C2 fails on the code.  On a board that has every section of the
    schedule, with the catch-all named "backlog", the first pass renames it
    to "backlog (£0 / £500)" and the second pass renames it again, to
    "backlog (£0 (£0 / £500)".  On an empty board the first pass creates 13
    sections and the second pass emits 13 renames, the renames of the
    first pass having named identifiers the remote side never saw. *)
Theorem second_pass_renames :
  (exists cmds1 cmds2,
     two_passes r_backlog = Some (cmds1, cmds2)
     /\ map rename_of (filter is_rename cmds1)
        = [Some (u "s1", u "backlog (£0 / £500)")]
     /\ map rename_of (filter is_rename cmds2)
        = [Some (u "s1", u "backlog (£0 (£0 / £500)")])
  /\ (exists cmds1 cmds2,
        two_passes r_empty = Some (cmds1, cmds2)
        /\ List.length (filter is_create cmds1) = 13
        /\ List.length (filter is_rename cmds2) = 13).
Proof.
  split; eexists; eexists; (split; [vm_compute; reflexivity|]);
    split; vm_compute; reflexivity.
Qed.

(** * Further properties *)

(** ** The months of the schedule *)

Lemma sort_year0_rolling (c : Z) :
  In c months ->
  sort (map (first_of_month (year0 c)) months)
  = map (rolling (year0 c)) [0; 1; 2; 3; 4; 5; 6; 7; 8; 9; 10; 11]%Z.
Proof.
  unfold months at 1. cbn [In].
  intros H; repeat (destruct H as [<- | H]; [vm_compute; reflexivity|]).
  contradiction.
Qed.

Lemma rolling_shift (now : datetime) (k : Z) :
  shift (year now) (rolling (year0 (month now)) k) = rolling now k.
Proof.
  unfold rolling, shift, year0; cbn [year month day].
  destruct (month now + k <=? 12)%Z; f_equal; lia.
Qed.

Lemma rolling_now (now : datetime) :
  (1 <= month now <= 12)%Z ->
  strftime_B_Y (rolling now 0) = strftime_B_Y now.
Proof.
  intros Hm. unfold rolling, strftime_B_Y; cbn [year month day].
  replace ((month now - 1 + 0) mod 12 + 1)%Z with (month now)
    by (rewrite Z.add_0_r, Z.mod_small; lia).
  replace (month now + 0 <=? 12)%Z with true
    by (symmetry; apply Z.leb_le; lia).
  reflexivity.
Qed.

Lemma schedule_rolling (now : datetime) :
  schedulable now ->
  exists dts,
    expected_dts now = inr dts
    /\ sort dts
       = map (rolling now) [0; 1; 2; 3; 4; 5; 6; 7; 8; 9; 10; 11]%Z
    /\ _get_expected_sections now
       = inr (strftime_B_Y now :: u "Backlog"
              :: map (fun k => strftime_B_Y (rolling now k))
                   [1; 2; 3; 4; 5; 6; 7; 8; 9; 10; 11]%Z).
Proof.
  intros H.
  pose proof (expected_dts_schedulable H) as Hdts.
  destruct H as [[_ [Hm _]] _].
  assert (Hsort : sort (map (first_of_month now) months)
                  = map (rolling now)
                      [0; 1; 2; 3; 4; 5; 6; 7; 8; 9; 10; 11]%Z).
  { rewrite sorted_dts, (sort_year0_rolling (proj2 (in_months _) Hm)).
    rewrite map_map. apply map_ext. intros k. apply rolling_shift. }
  exists (map (first_of_month now) months).
  split; [exact Hdts|]. split; [exact Hsort|].
  rewrite (expected_sections_of_dts _ Hdts), Hsort.
  cbn [map firstn skipn app]. rewrite (rolling_now now Hm). reflexivity.
Qed.


(** ** Creation of the missing sections *)

Lemma add_missing_sections_loop now pid uuid4 w :
  add_missing_sections now pid uuid4 w
  = match _get_expected_sections now with
    | inl e => (inl e, w)
    | inr expected => for_each expected (create_step pid uuid4) [] w
    end.
Proof.
  unfold add_missing_sections. rewrite bind_run, lift_run.
  destruct (_get_expected_sections now); reflexivity.
Qed.

Lemma create_step_carried pid uuid4 L cmds w :
  carried (sections w) L = true ->
  create_step pid uuid4 L cmds w = (inr cmds, w).
Proof.
  unfold carried. intros H. unfold create_step.
  rewrite bind_run. unfold get_sections at 1. rewrite H. reflexivity.
Qed.

Lemma create_step_missing pid uuid4 L cmds w :
  carried (sections w) L = false ->
  create_step pid uuid4 L cmds w
  = (inr (cmds ++ create_cmds pid uuid4 (drawn w) [L]),
     grown 3 (create_secs pid uuid4 (drawn w) [L]) w).
Proof.
  unfold carried. intros H. unfold create_step.
  rewrite bind_run. unfold get_sections at 1. rewrite H.
  cbn [negb create_cmds create_secs]. unfold grown, default_name.
  replace (drawn w + 1) with (S (drawn w)) by lia.
  replace (drawn w + 2) with (S (S (drawn w))) by lia.
  replace (drawn w + 3) with (S (S (S (drawn w)))) by lia.
  reflexivity.
Qed.

Lemma lower_app a b : lower (a ++ b) = lower a ++ lower b.
Proof. unfold lower. apply flat_map_app. Qed.

Lemma startswith_app p s : startswith (p ++ s) p = true.
Proof.
  induction p as [|c p IH]; cbn [startswith app].
  - destruct s; reflexivity.
  - rewrite N.eqb_refl, IH. reflexivity.
Qed.

Lemma startswith_firstn s p :
  startswith s p = true -> firstn (List.length p) s = p.
Proof.
  revert s. induction p as [|c p IH]; intros s H.
  - reflexivity.
  - destruct s as [|x s]; cbn [startswith] in H; [discriminate|].
    apply andb_true_iff in H. destruct H as [Hx Hs].
    apply N.eqb_eq in Hx. subst x. cbn [List.length firstn].
    rewrite (IH s Hs). reflexivity.
Qed.

Lemma firstn_firstn_le {A} (n m : nat) (l : list A) :
  n <= m -> firstn n (firstn m l) = firstn n l.
Proof. intros H. rewrite firstn_firstn. f_equal. lia. Qed.

(** A name that carries a label of at least three code points has the
    key of the label. *)
Lemma matches_key name L :
  List.length (key L) = 3 -> matches name L = true -> key name = key L.
Proof.
  unfold key, matches. intros Hlen H.
  assert (Hl : 3 <= List.length (lower L)).
  { rewrite length_firstn in Hlen. lia. }
  apply startswith_firstn in H.
  transitivity (firstn 3 (firstn (List.length (lower L)) (lower name))).
  - rewrite firstn_firstn_le by exact Hl. reflexivity.
  - rewrite H. reflexivity.
Qed.

Lemma matches_default_name L : matches (default_name L) L = true.
Proof.
  unfold matches, default_name. rewrite lower_app. apply startswith_app.
Qed.

Lemma NoDup_map_eq {A B} (f : A -> B) (l : list A) (x y : A) :
  NoDup (map f l) -> In x l -> In y l -> f x = f y -> x = y.
Proof.
  induction l as [|a l IH]; intros Hnd Hx Hy Hf; [contradiction|].
  cbn [map] in Hnd. inversion Hnd as [|? ? Hnotin Hnd']; subst.
  destruct Hx as [<-|Hx], Hy as [<-|Hy].
  - reflexivity.
  - exfalso. apply Hnotin. rewrite Hf. apply in_map. exact Hy.
  - exfalso. apply Hnotin. rewrite <- Hf. apply in_map. exact Hx.
  - apply IH; assumption.
Qed.

Lemma keyed_exclusive ls name L1 L2 :
  keyed ls -> In L1 ls -> In L2 ls ->
  matches name L1 = true -> matches name L2 = true -> L1 = L2.
Proof.
  intros [Hnd Hlen] H1 H2 M1 M2.
  rewrite Forall_forall in Hlen.
  apply (@NoDup_map_eq _ _ key ls); try assumption.
  rewrite <- (@matches_key name L1 (Hlen _ H1) M1).
  apply (@matches_key name L2 (Hlen _ H2) M2).
Qed.

Lemma keyed_NoDup ls : keyed ls -> NoDup ls.
Proof. intros [Hnd _]. apply NoDup_map_inv in Hnd. exact Hnd. Qed.

Lemma keyed_tail L ls : keyed (L :: ls) -> keyed ls.
Proof.
  intros [Hnd Hlen]. cbn [map] in Hnd.
  inversion Hnd; inversion Hlen; subst. split; assumption.
Qed.

Lemma carried_app secs secs' L :
  carried (secs ++ secs') L = carried secs L || carried secs' L.
Proof. unfold carried. apply existsb_app. Qed.

Lemma grown_grown n m a b w :
  grown n a (grown m b w) = grown (m + n) (b ++ a) w.
Proof.
  unfold grown; cbn [drawn sections tasks].
  rewrite <- app_assoc, Nat.add_assoc. reflexivity.
Qed.

Lemma create_loop pid uuid4 :
  forall (ls : list str) (cmds : list command) (w : world),
    keyed ls ->
    for_each ls (create_step pid uuid4) cmds w
    = (inr (cmds ++ create_cmds pid uuid4 (drawn w)
                      (missing_labels (sections w) ls)),
       grown (3 * List.length (missing_labels (sections w) ls))
         (create_secs pid uuid4 (drawn w) (missing_labels (sections w) ls))
         w).
Proof.
  induction ls as [|L ls IH]; intros cmds w Hk; cbn [for_each].
  - cbn. rewrite app_nil_r. unfold grown. rewrite Nat.add_0_r, app_nil_r.
    destruct w; reflexivity.
  - rewrite bind_run. unfold missing_labels. cbn [filter].
    destruct (carried (sections w) L) eqn:Hc; cbn [negb].
    + rewrite (@create_step_carried pid uuid4 L cmds w Hc).
      apply IH. apply (@keyed_tail L ls Hk).
    + rewrite (@create_step_missing pid uuid4 L cmds w Hc).
      rewrite (IH _ _ (@keyed_tail L ls Hk)).
      assert (Hm : missing_labels
                     (sections (grown 3 (create_secs pid uuid4 (drawn w) [L]) w))
                     ls
                   = missing_labels (sections w) ls).
      { unfold missing_labels. apply filter_ext_in. intros L2 H2.
        unfold grown. cbn [sections]. rewrite carried_app.
        assert (Hn : carried (create_secs pid uuid4 (drawn w) [L]) L2 = false).
        { unfold carried. cbn [create_secs existsb s_name].
          rewrite orb_false_r.
          destruct (matches (default_name L) L2) eqn:M; [|reflexivity].
          exfalso.
          assert (E : L = L2).
          { apply (@keyed_exclusive (L :: ls) (default_name L) L L2 Hk);
              [left; reflexivity | right; exact H2
              | apply matches_default_name | exact M]. }
          subst L2. apply keyed_NoDup in Hk. inversion Hk. contradiction. }
        rewrite Hn, orb_false_r. reflexivity. }
      rewrite Hm. fold (missing_labels (sections w) ls).
      rewrite grown_grown. cbn [create_cmds create_secs List.length app].
      rewrite <- app_assoc. cbn [app drawn grown].
      f_equal. f_equal. lia.
Qed.

Lemma key_strftime (d : datetime) :
  (1 <= month d <= 12)%Z ->
  key (strftime_B_Y d) = firstn 3 (lower (month_name (month d))).
Proof.
  intros Hm. unfold key, strftime_B_Y. rewrite lower_app, firstn_app.
  assert (H : List.length (lower (month_name (month d))) >= 3).
  { apply in_months in Hm. unfold months in Hm. cbn [In] in Hm.
    repeat (destruct Hm as [<- | Hm]; [vm_compute; lia|]). contradiction. }
  replace (3 - List.length (lower (month_name (month d)))) with 0 by lia.
  cbn [firstn]. apply app_nil_r.
Qed.

Lemma rolling_month (now : datetime) (k : Z) :
  (1 <= month (rolling now k) <= 12)%Z.
Proof.
  unfold rolling; cbn [month].
  pose proof (Z.mod_pos_bound (month now - 1 + k) 12). lia.
Qed.

Lemma key_rolling (now : datetime) (k : Z) :
  key (strftime_B_Y (rolling now k))
  = key (strftime_B_Y (rolling (year0 (month now)) k)).
Proof.
  rewrite !key_strftime by apply rolling_month. reflexivity.
Qed.

Lemma expected_sections_keyed (now : datetime) :
  schedulable now ->
  exists expected, _get_expected_sections now = inr expected /\ keyed expected.
Proof.
  intros H. destruct (schedule_rolling H) as [dts [_ [_ He]]].
  destruct H as [[_ [Hm _]] _].
  eexists. split; [exact He|].
  unfold keyed.
  match goal with
  | |- context [map key (?a :: ?b :: map ?F ?L)] =>
    change (map key (a :: b :: map F L))
      with (key a :: key b :: map key (map F L))
  end.
  rewrite map_map.
  rewrite <- (rolling_now now Hm), key_rolling.
  rewrite (map_ext _ _ (key_rolling now)).
  split.
  - apply in_months in Hm. unfold months in Hm. cbn [In] in Hm.
    repeat (destruct Hm as [<- | Hm];
            [vm_compute;
             repeat (constructor; [cbn [In]; intuition discriminate|]);
             constructor|]).
    contradiction.
  - constructor; [|constructor; [reflexivity|]].
    + rewrite key_strftime by apply rolling_month.
      pose proof (rolling_month now 0) as Hk.
      apply in_months in Hk. unfold months in Hk. cbn [In] in Hk.
      repeat (destruct Hk as [<- | Hk]; [vm_compute; reflexivity|]).
      contradiction.
    + apply Forall_map. apply Forall_forall. intros k _.
      rewrite key_strftime by apply rolling_month.
      pose proof (rolling_month now k) as Hk.
      apply in_months in Hk. unfold months in Hk. cbn [In] in Hk.
      repeat (destruct Hk as [<- | Hk]; [vm_compute; reflexivity|]).
      contradiction.
Qed.

Lemma carried_create_secs pid uuid4 (ls : list str) (L : str) :
  forall n, In L ls -> carried (create_secs pid uuid4 n ls) L = true.
Proof.
  unfold carried.
  induction ls as [|L' ls IH]; intros n H; [contradiction|].
  cbn [create_secs existsb s_name]. destruct H as [->|H].
  - rewrite matches_default_name. reflexivity.
  - rewrite (IH (n + 3) H). apply orb_true_r.
Qed.

Lemma missing_labels_none secs ls :
  (forall L, In L ls -> carried secs L = true) -> missing_labels secs ls = [].
Proof.
  unfold missing_labels. induction ls as [|L ls IH]; intros H; cbn [filter].
  - reflexivity.
  - rewrite (H L (or_introl eq_refl)). cbn [negb]. apply IH.
    intros L' H'. apply H. right. exact H'.
Qed.

Lemma grown_nothing w : grown 0 [] w = w.
Proof.
  unfold grown. rewrite Nat.add_0_r, app_nil_r. destruct w; reflexivity.
Qed.

Lemma length_create_cmds pid uuid4 ls :
  forall n, List.length (create_cmds pid uuid4 n ls) = List.length ls.
Proof.
  induction ls as [|L ls IH]; intros n; cbn [create_cmds List.length].
  - reflexivity.
  - rewrite IH. reflexivity.
Qed.

(** X1.  What [add_missing_sections] does on a date on which the schedule
    exists: for the labels of the schedule that no section of the board
    carries, in the order of the schedule, it emits one create command
    named "<label> (£0.00 / £500)" and appends one section record of that
    name; it draws three UUIDs for each, the first for the record, the
    second for the temporary identifier of the command and the third for
    its [uuid]; sections already on the board and the tasks are kept. *)
Theorem add_missing_sections_result (now : datetime) :
  schedulable now ->
  exists expected,
    _get_expected_sections now = inr expected
    /\ forall pid uuid4 w,
         add_missing_sections now pid uuid4 w
         = (inr (create_cmds pid uuid4 (drawn w)
                   (missing_labels (sections w) expected)),
            grown (3 * List.length (missing_labels (sections w) expected))
              (create_secs pid uuid4 (drawn w)
                 (missing_labels (sections w) expected))
              w).
Proof.
  intros H. destruct (expected_sections_keyed H) as [expected [He Hk]].
  exists expected. split; [exact He|].
  intros pid uuid4 w. rewrite add_missing_sections_loop, He.
  apply (create_loop pid uuid4 [] w Hk).
Qed.

Lemma add_missing_sections_result_witness :
  exists expected,
    _get_expected_sections now0 = inr expected
    /\ forall pid uuid4 w,
         add_missing_sections now0 pid uuid4 w
         = (inr (create_cmds pid uuid4 (drawn w)
                   (missing_labels (sections w) expected)),
            grown (3 * List.length (missing_labels (sections w) expected))
              (create_secs pid uuid4 (drawn w)
                 (missing_labels (sections w) expected))
              w).
Proof.
  apply (@add_missing_sections_result now0).
  unfold schedulable, valid, now0, MINYEAR, MAXYEAR; cbn. lia.
Defined.

Lemma add_missing_sections_carries now pid uuid4 w expected :
  _get_expected_sections now = inr expected ->
  keyed expected ->
  forall L, In L expected ->
    carried (sections (snd (add_missing_sections now pid uuid4 w))) L = true.
Proof.
  intros He Hk L HL. rewrite add_missing_sections_loop, He.
  rewrite (create_loop pid uuid4 [] w Hk). cbn [snd]. unfold grown.
  cbn [sections]. rewrite carried_app.
  destruct (carried (sections w) L) eqn:Hc; [reflexivity|].
  cbn [orb]. apply carried_create_secs.
  unfold missing_labels. apply filter_In. split; [exact HL|].
  rewrite Hc. reflexivity.
Qed.

(** X2.  After [add_missing_sections] every label of the schedule is
    carried by a section of the working set, and a second call right
    after it emits nothing and leaves the working set as it is. *)
Theorem add_missing_sections_idempotent (now : datetime) (pid : str)
    (uuid4 : nat -> str) (w : world) :
  schedulable now ->
  exists expected cmds w1,
    _get_expected_sections now = inr expected
    /\ add_missing_sections now pid uuid4 w = (inr cmds, w1)
    /\ (forall L, In L expected -> carried (sections w1) L = true)
    /\ add_missing_sections now pid uuid4 w1 = (inr [], w1).
Proof.
  intros H. destruct (expected_sections_keyed H) as [expected [He Hk]].
  pose proof (@add_missing_sections_carries now pid uuid4 w expected He Hk) as Hc.
  rewrite add_missing_sections_loop, He in Hc |- *.
  rewrite (create_loop pid uuid4 [] w Hk) in Hc |- *. cbn [snd] in Hc.
  eexists. eexists. eexists.
  split; [reflexivity|]. split; [reflexivity|]. split; [exact Hc|].
  rewrite add_missing_sections_loop, He.
  rewrite (create_loop pid uuid4 [] _ Hk).
  rewrite (@missing_labels_none _ _ Hc). cbn [create_cmds create_secs List.length].
  rewrite Nat.mul_0_r, grown_nothing. reflexivity.
Qed.

Lemma add_missing_sections_idempotent_witness :
  exists expected cmds w1,
    _get_expected_sections now0 = inr expected
    /\ add_missing_sections now0 (u "p") uuid_n w_archive = (inr cmds, w1)
    /\ (forall L, In L expected -> carried (sections w1) L = true)
    /\ add_missing_sections now0 (u "p") uuid_n w1 = (inr [], w1).
Proof.
  apply (@add_missing_sections_idempotent now0 (u "p") uuid_n w_archive).
  unfold schedulable, valid, now0, MINYEAR, MAXYEAR; cbn. lia.
Defined.

Lemma missing_labels_empty ls : missing_labels [] ls = ls.
Proof.
  unfold missing_labels, carried. cbn [existsb negb].
  induction ls as [|L ls IH]; cbn [filter]; [reflexivity|].
  rewrite IH. reflexivity.
Qed.

Lemma create_cmds_names pid uuid4 ls :
  forall n,
    map (fun c => match c with
                  | section_add _ _ name proj => Some (name, proj)
                  | _ => None
                  end) (create_cmds pid uuid4 n ls)
    = map (fun L => Some (default_name L, pid)) ls.
Proof.
  induction ls as [|L ls IH]; intros n; cbn [create_cmds map].
  - reflexivity.
  - rewrite IH. reflexivity.
Qed.

(** On a board without sections [add_missing_sections] emits 13
    create commands, one for each label of the schedule and in its order,
    named "<label> (£0.00 / £500)" in the project of the pass, and the
    working set then holds 13 sections. *)
Theorem add_missing_sections_empty_board (now : datetime) (pid : str)
    (uuid4 : nat -> str) (w : world) :
  schedulable now ->
  sections w = [] ->
  exists expected cmds w1,
    _get_expected_sections now = inr expected
    /\ add_missing_sections now pid uuid4 w = (inr cmds, w1)
    /\ List.length cmds = 13
    /\ map (fun c => match c with
                     | section_add _ _ name proj => Some (name, proj)
                     | _ => None
                     end) cmds
       = map (fun L => Some (default_name L, pid)) expected
    /\ map s_name (sections w1) = map default_name expected.
Proof.
  intros H Hw. destruct (expected_sections_keyed H) as [expected [He Hk]].
  destruct (expected_sections_keys H) as [l [Hl [Hlen _]]].
  rewrite He in Hl. injection Hl as <-.
  rewrite add_missing_sections_loop, He.
  rewrite (create_loop pid uuid4 [] w Hk), Hw, missing_labels_empty.
  cbn [app].
  eexists. eexists. eexists.
  split; [reflexivity|]. split; [reflexivity|].
  split; [rewrite length_create_cmds; exact Hlen|].
  split; [apply create_cmds_names|].
  unfold grown. cbn [sections]. rewrite Hw. cbn [app].
  generalize (drawn w). clear.
  induction expected as [|L ls IH]; intros n; cbn [create_secs map s_name].
  - reflexivity.
  - rewrite IH. reflexivity.
Qed.

Lemma add_missing_sections_empty_board_witness :
  exists expected cmds w1,
    _get_expected_sections now0 = inr expected
    /\ add_missing_sections now0 (u "p") uuid_n w_empty = (inr cmds, w1)
    /\ List.length cmds = 13
    /\ map (fun c => match c with
                     | section_add _ _ name proj => Some (name, proj)
                     | _ => None
                     end) cmds
       = map (fun L => Some (default_name L, u "p")) expected
    /\ map s_name (sections w1) = map default_name expected.
Proof.
  apply (@add_missing_sections_empty_board now0 (u "p") uuid_n w_empty).
  - unfold schedulable, valid, now0, MINYEAR, MAXYEAR; cbn. lia.
  - reflexivity.
Defined.

(** ** Labels and the current section *)

(** X3.  On a date on which the schedule exists, a name carries at most
    one of its labels: the matching of sections with labels, prefix and
    case aside, is unambiguous. *)
Theorem label_unambiguous (now : datetime) :
  schedulable now ->
  exists expected,
    _get_expected_sections now = inr expected
    /\ forall name L1 L2,
         In L1 expected -> In L2 expected ->
         matches name L1 = true -> matches name L2 = true -> L1 = L2.
Proof.
  intros H. destruct (expected_sections_keyed H) as [expected [He Hk]].
  exists expected. split; [exact He|].
  intros name L1 L2. apply (@keyed_exclusive expected name L1 L2 Hk).
Qed.

Lemma label_unambiguous_witness :
  exists expected,
    _get_expected_sections now0 = inr expected
    /\ forall name L1 L2,
         In L1 expected -> In L2 expected ->
         matches name L1 = true -> matches name L2 = true -> L1 = L2.
Proof.
  apply (@label_unambiguous now0).
  unfold schedulable, valid, now0, MINYEAR, MAXYEAR; cbn. lia.
Defined.

Lemma current_section_none now secs :
  _get_current_section_id now secs = None
  <-> carried secs (strftime_B_Y now) = false.
Proof.
  unfold carried.
  induction secs as [|s secs IH]; cbn [_get_current_section_id existsb].
  - split; reflexivity.
  - destruct (matches (s_name s) (strftime_B_Y now)); cbn [orb].
    + split; discriminate.
    + exact IH.
Qed.

Lemma current_section_some now secs id :
  _get_current_section_id now secs = Some id ->
  exists s, In s secs /\ s_id s = id
            /\ matches (s_name s) (strftime_B_Y now) = true.
Proof.
  induction secs as [|s secs IH]; cbn [_get_current_section_id].
  - discriminate.
  - destruct (matches (s_name s) (strftime_B_Y now)) eqn:M.
    + intros E. injection E as <-. exists s.
      split; [left; reflexivity | split; [reflexivity | exact M]].
    + intros E. destruct (IH E) as [s' [Hin Hs']].
      exists s'. split; [right; exact Hin | exact Hs'].
Qed.

(** X4.  [_get_current_section_id] returns [None] exactly when no section
    carries the label of the current month, and otherwise the identifier
    of a section of the list that carries it.  After
    [add_missing_sections] it is never [None]. *)
Theorem current_section_found (now : datetime) :
  (forall secs,
      _get_current_section_id now secs = None
      <-> carried secs (strftime_B_Y now) = false)
  /\ (forall secs id,
        _get_current_section_id now secs = Some id ->
        exists s, In s secs /\ s_id s = id
                  /\ matches (s_name s) (strftime_B_Y now) = true)
  /\ (schedulable now ->
      forall pid uuid4 w,
        _get_current_section_id now
          (sections (snd (add_missing_sections now pid uuid4 w)))
        <> None).
Proof.
  split; [intros secs; apply current_section_none|].
  split; [intros secs id; apply current_section_some|].
  intros H pid uuid4 w Hnone.
  apply current_section_none in Hnone.
  destruct (expected_sections_keyed H) as [expected [He Hk]].
  destruct (schedule_shape H) as [dts [rest [_ [_ [_ [He' _]]]]]].
  rewrite He in He'. injection He' as ->.
  rewrite (@add_missing_sections_carries now pid uuid4 w _ He Hk) in Hnone;
    [discriminate | left; reflexivity].
Qed.

Lemma current_section_found_witness :
  _get_current_section_id now0
    (sections (snd (add_missing_sections now0 (u "p") uuid_n w_empty)))
  <> None.
Proof.
  apply (proj2 (proj2 (current_section_found now0))).
  unfold schedulable, valid, now0, MINYEAR, MAXYEAR; cbn. lia.
Defined.

(** ** The order command *)

Lemma order_map_positions (secs : list section) :
  forall k,
    order_map_from k secs
    = combine (map s_id secs) (seq (k + 1) (List.length secs)).
Proof.
  induction secs as [|s secs IH]; intros k;
    cbn [order_map_from map List.length seq combine].
  - reflexivity.
  - rewrite IH. replace (S k + 1) with (S (k + 1)) by lia. reflexivity.
Qed.

(** X5.  [set_section_order] always returns one reorder command, which
    lists the identifier of every section of the working set once, in the
    order of the list, with the positions 1, 2, ..., n; it draws one UUID
    and changes nothing else. *)
Theorem set_section_order_positions (uuid4 : nat -> str) (w : world) :
  set_section_order uuid4 w
  = (inr [section_reorder (uuid4 (drawn w))
            (combine (map s_id (sections w))
               (seq 1 (List.length (sections w))))],
     with_drawn (S (drawn w)) w).
Proof.
  unfold set_section_order. rewrite bind_run. unfold get_sections at 1.
  rewrite bind_run. unfold reorder_sections. rewrite bind_run.
  unfold random_uuid at 1. rewrite !ret_run.
  rewrite (order_map_positions (sections w) 0). reflexivity.
Qed.

(** ** The whole pass *)

Lemma create_loop_any pid uuid4 :
  forall (ls : list str) (cmds : list command) (w : world),
    exists new n added,
      for_each ls (create_step pid uuid4) cmds w
      = (inr (cmds ++ new), grown n added w)
      /\ forallb is_create new = true
      /\ Forall (fun s => exists L, In L ls /\ s_name s = default_name L)
           added.
Proof.
  induction ls as [|L ls IH]; intros cmds w; cbn [for_each].
  - exists [], 0, []. rewrite app_nil_r, grown_nothing.
    repeat split. constructor.
  - rewrite bind_run. destruct (carried (sections w) L) eqn:Hc.
    + rewrite (@create_step_carried pid uuid4 L cmds w Hc).
      destruct (IH cmds w) as [new [n [added [Hrun [Hnew Hadd]]]]].
      exists new, n, added. split; [exact Hrun|]. split; [exact Hnew|].
      eapply Forall_impl; [|exact Hadd].
      intros s [L' [HL' Hs]]. exists L'. split; [right; exact HL' | exact Hs].
    + rewrite (@create_step_missing pid uuid4 L cmds w Hc).
      destruct (IH (cmds ++ create_cmds pid uuid4 (drawn w) [L])
                  (grown 3 (create_secs pid uuid4 (drawn w) [L]) w))
        as [new [n [added [Hrun [Hnew Hadd]]]]].
      exists (create_cmds pid uuid4 (drawn w) [L] ++ new), (3 + n),
        (create_secs pid uuid4 (drawn w) [L] ++ added).
      split; [|split].
      * rewrite Hrun, grown_grown, app_assoc. reflexivity.
      * cbn [create_cmds app forallb is_create]. exact Hnew.
      * cbn [create_secs app]. constructor.
        -- exists L. split; [left; reflexivity | reflexivity].
        -- eapply Forall_impl; [|exact Hadd].
           intros s [L' [HL' Hs]]. exists L'.
           split; [right; exact HL' | exact Hs].
Qed.

Lemma archive_loop_clean (expected : list str) (ts : list task)
    (current_section_id : option str) :
  forall (l : list section) (cmds : list command) (w : world),
    existsb (unwanted expected) l = false ->
    for_each l
      (fun s cmds =>
         if negb (existsb (fun e => matches (s_name s) e) expected)
         then
           section_dot_name s ;;;
           cmds1 <- for_each (tasks_to_move ts s)
                      (fun t cmds =>
                         cmd <- self_move_task_to_section (t_id t)
                                  current_section_id ;;
                         ret (cmds ++ [cmd]))
                      cmds ;;
           cmd <- api_archive_section (s_id s) ;;
           ret (cmds1 ++ [cmd])
         else ret cmds)
      cmds w
    = (inr cmds, w).
Proof.
  induction l as [|s l IH]; intros cmds w H; cbn [for_each].
  - reflexivity.
  - cbn [existsb] in H. apply orb_false_iff in H. destruct H as [Hs Hl].
    unfold unwanted in Hs. rewrite bind_run, Hs, ret_run. apply IH. exact Hl.
Qed.

Lemma archive_unwanted_sections_clean (now : datetime) (w : world)
    (expected : list str) :
  _get_expected_sections now = inr expected ->
  existsb (unwanted expected) (sections w) = false ->
  archive_unwanted_sections now w = (inr [], w).
Proof.
  intros He Hu. unfold archive_unwanted_sections.
  rewrite bind_run, lift_run, He.
  rewrite bind_run. unfold get_sections at 1.
  rewrite bind_run. unfold get_tasks at 1.
  apply archive_loop_clean. exact Hu.
Qed.

Lemma do_housekeeping_steps now pid uuid4 fr w :
  do_housekeeping now pid uuid4 fr w
  = match add_missing_sections now pid uuid4 w with
    | (inl e, w1) => (inl e, w1)
    | (inr c1, w1) =>
      match archive_unwanted_sections now w1 with
      | (inl e, w2) => (inl e, w2)
      | (inr c2, w2) =>
        match set_section_order uuid4 w2 with
        | (inl e, w3) => (inl e, w3)
        | (inr c3, w3) =>
          match set_section_titles now uuid4 fr w3 with
          | (inl e, w4) => (inl e, w4)
          | (inr c4, w4) => (inr (c1 ++ c2 ++ c3 ++ c4), w4)
          end
        end
      end
    end.
Proof.
  unfold do_housekeeping. rewrite bind_run.
  destruct (add_missing_sections now pid uuid4 w) as [[e|c1] w1];
    [reflexivity|].
  rewrite bind_run.
  destruct (archive_unwanted_sections now w1) as [[e|c2] w2]; [reflexivity|].
  rewrite bind_run.
  destruct (set_section_order uuid4 w2) as [[e|c3] w3]; [reflexivity|].
  rewrite bind_run.
  destruct (set_section_titles now uuid4 fr w3) as [[e|c4] w4]; reflexivity.
Qed.

(** X6.  A board that holds a section carrying no label of the schedule
    makes the whole pass raise [AttributeError]: [add_missing_sections]
    only appends, the unwanted section is still there when
    [archive_unwanted_sections] runs, and no command is handed to
    [do_update]. *)
Theorem do_housekeeping_unwanted (now : datetime) (pid : str)
    (uuid4 : nat -> str) (fr : float64 -> str) (w : world)
    (expected : list str) :
  _get_expected_sections now = inr expected ->
  existsb (unwanted expected) (sections w) = true ->
  fst (do_housekeeping now pid uuid4 fr w)
  = inl (AttributeError "dict" "name").
Proof.
  intros He Hu. rewrite do_housekeeping_steps.
  rewrite add_missing_sections_loop, He.
  destruct (create_loop_any pid uuid4 expected [] w)
    as [new [n [added [Hrun _]]]].
  rewrite Hrun.
  rewrite (@archive_unwanted_sections_unwanted now (grown n added w)
             expected He).
  - reflexivity.
  - unfold grown. cbn [sections]. rewrite existsb_app.
    unfold unwanted in Hu. rewrite Hu. reflexivity.
Qed.

Lemma do_housekeeping_unwanted_witness :
  fst (do_housekeeping now0 (u "p") uuid_n repr_integral w_archive)
  = inl (AttributeError "dict" "name").
Proof.
  eapply (@do_housekeeping_unwanted now0 (u "p") uuid_n repr_integral
            w_archive).
  - vm_compute. reflexivity.
  - vm_compute. reflexivity.
Defined.

Lemma set_section_titles_renames now uuid4 fr w cmds :
  fst (set_section_titles now uuid4 fr w) = inr cmds ->
  forallb is_rename cmds = true.
Proof.
  rewrite set_section_titles_loop.
  destruct (map_result (expected_title now fr (sections w) (tasks w))
              (sections w)) as [e|titles] eqn:Ht.
  - rewrite (@titles_loop_raises now uuid4 fr _ _ _ e [] w Ht). discriminate.
  - destruct (@titles_loop now uuid4 fr _ _ _ titles [] w Ht)
      as [cmds' [Hrun [Hall _]]].
    rewrite Hrun. cbn [fst app]. intros E. injection E as <-. exact Hall.
Qed.

Lemma existsb_forallb_negb {A} (f : A -> bool) (l : list A) :
  existsb f l = negb (forallb (fun x => negb (f x)) l).
Proof.
  induction l as [|x l IH]; cbn [existsb forallb]; [reflexivity|].
  rewrite IH. destruct (f x); reflexivity.
Qed.

Lemma no_move_of_create cmds :
  forallb is_create cmds = true -> existsb is_move cmds = false.
Proof.
  induction cmds as [|c cmds IH]; cbn [forallb existsb]; [reflexivity|].
  rewrite andb_true_iff. intros [Hc Hl]. rewrite (IH Hl).
  destruct c; (discriminate || reflexivity).
Qed.

Lemma no_move_of_rename cmds :
  forallb is_rename cmds = true -> existsb is_move cmds = false.
Proof.
  induction cmds as [|c cmds IH]; cbn [forallb existsb]; [reflexivity|].
  rewrite andb_true_iff. intros [Hc Hl]. rewrite (IH Hl).
  destruct c; (discriminate || reflexivity).
Qed.

(** X7.  Whenever the pass returns, what it hands to [do_update] is: the
    create commands of [add_missing_sections], then exactly one reorder
    command, which lists every section of the working set (the created
    ones included) at the positions 1..n, then the rename commands.  No
    relocation of a task is ever among them. *)
Theorem do_housekeeping_commands (now : datetime) (pid : str)
    (uuid4 : nat -> str) (fr : float64 -> str) (w : world)
    (cmds : list command) :
  fst (do_housekeeping now pid uuid4 fr w) = inr cmds ->
  exists c1 w1 c4,
    add_missing_sections now pid uuid4 w = (inr c1, w1)
    /\ forallb is_create c1 = true
    /\ forallb is_rename c4 = true
    /\ cmds = c1
              ++ [section_reorder (uuid4 (drawn w1))
                    (combine (map s_id (sections w1))
                       (seq 1 (List.length (sections w1))))]
              ++ c4
    /\ existsb is_move cmds = false.
Proof.
  rewrite do_housekeeping_steps, add_missing_sections_loop.
  destruct (_get_expected_sections now) as [e|expected]; [discriminate|].
  destruct (create_loop_any pid uuid4 expected [] w)
    as [c1 [n [added [Hrun [Hc1 _]]]]].
  rewrite Hrun. cbn [app].
  destruct (archive_unwanted_sections_run now (grown n added w))
    as [r [Hr [-> | [e ->]]]]; rewrite Hr; [|discriminate].
  rewrite set_section_order_positions.
  destruct (set_section_titles now uuid4 fr
              (with_drawn (S (drawn (grown n added w))) (grown n added w)))
    as [[e|c4] w4] eqn:Ht; [discriminate|].
  cbn [fst]. intros E. injection E as <-.
  assert (Hc4 : forallb is_rename c4 = true).
  { apply (@set_section_titles_renames now uuid4 fr
             (with_drawn (S (drawn (grown n added w))) (grown n added w)) c4).
    rewrite Ht. reflexivity. }
  exists c1, (grown n added w), c4.
  split; [reflexivity|]. split; [exact Hc1|]. split; [exact Hc4|].
  split; [reflexivity|].
  cbn [app]. rewrite !existsb_app. cbn [existsb is_move].
  rewrite (no_move_of_create _ Hc1), (no_move_of_rename _ Hc4). reflexivity.
Qed.

Lemma do_housekeeping_commands_witness :
  exists c1 w1 c4,
    add_missing_sections now0 (u "p") uuid_n w_spend = (inr c1, w1)
    /\ forallb is_create c1 = true
    /\ forallb is_rename c4 = true
    /\ commands_of (do_housekeeping now0 (u "p") uuid_n repr_integral w_spend)
       = c1
         ++ [section_reorder (uuid_n (drawn w1))
               (combine (map s_id (sections w1))
                  (seq 1 (List.length (sections w1))))]
         ++ c4
    /\ existsb is_move
         (commands_of
            (do_housekeeping now0 (u "p") uuid_n repr_integral w_spend))
       = false.
Proof.
  apply (@do_housekeeping_commands now0 (u "p") uuid_n repr_integral w_spend).
  vm_compute. reflexivity.
Defined.

(** ** The sign of a cost *)

Lemma binary_round_aux_sign (mx ex : Z) (lx : location) :
  non_negative (binary_round_aux prec emax false mx ex lx) = true.
Proof.
  unfold binary_round_aux.
  destruct (shr_fexp prec emax mx ex lx) as [mrs' e'].
  destruct (shr_fexp prec emax _ e' loc_Exact) as [mrs'' e''].
  destruct (shr_m mrs''); try reflexivity.
  destruct (e'' <=? emax - prec)%Z; reflexivity.
Qed.

Lemma binary_round_sign (m : positive) (e : Z) :
  non_negative (binary_round prec emax false m e) = true.
Proof.
  unfold binary_round. destruct (shl_align m e _) as [mz ez].
  apply binary_round_aux_sign.
Qed.

Lemma binary_normalize_sign (m e : Z) :
  (0 <= m)%Z -> non_negative (binary_normalize prec emax m e false) = true.
Proof.
  intros H. destruct m as [|p|p]; cbn [binary_normalize].
  - reflexivity.
  - apply binary_round_sign.
  - lia.
Qed.

Lemma of_decimal_sign (m : N) (e : Z) : non_negative (of_decimal m e) = true.
Proof.
  unfold of_decimal. destruct m as [|p]; [reflexivity|].
  destruct e as [|k|k].
  - apply binary_normalize_sign. lia.
  - apply binary_normalize_sign.
    pose proof (Z.pow_nonneg 10 (Zpos k)). lia.
  - cbn [SFdiv xorb]. destruct (SFdiv_core_binary _ _ _ _ _ _) as [[mz ez] lz].
    apply binary_round_aux_sign.
Qed.

Lemma float_of_str_sign (s : str) (f : float64) :
  float_of_str s = Some f -> non_negative f = true.
Proof.
  unfold float_of_str.
  destruct (Str.eqb _ _ || Str.eqb _ _).
  - intros E. injection E as <-. reflexivity.
  - destruct (Str.eqb _ _).
    + intros E. injection E as <-. reflexivity.
    + destruct (parse_decimal s) as [[m e]|]; [|discriminate].
      intros E. injection E as <-. apply of_decimal_sign.
Qed.

Lemma fadd_sign (x y : float64) :
  non_negative x = true -> non_negative y = true ->
  non_negative (fadd x y) = true.
Proof.
  unfold fadd.
  destruct x as [sx|sx| |sx mx ex], y as [sy|sy| |sy my ey];
    cbn [non_negative SFadd]; intros Hx Hy;
    try (apply negb_true_iff in Hx; subst sx);
    try (apply negb_true_iff in Hy; subst sy);
    try reflexivity.
  apply binary_normalize_sign. cbn [cond_Zopp]. lia.
Qed.

Lemma add_float_sign (a : num) (f : float64) :
  num_non_negative a = true -> non_negative f = true ->
  num_non_negative (add_float a f) = true.
Proof.
  destruct a as [z|g]; cbn [num_non_negative add_float]; intros Ha Hf.
  - apply fadd_sign; [|exact Hf].
    apply binary_normalize_sign. apply Z.leb_le. exact Ha.
  - apply fadd_sign; assumption.
Qed.

Lemma add_first_price_sign (ws : list str) (total total' : num) :
  num_non_negative total = true ->
  add_first_price ws total = inr total' ->
  num_non_negative total' = true.
Proof.
  intros Ht. induction ws as [|w ws IH]; cbn [add_first_price].
  - intros E. injection E as <-. exact Ht.
  - destruct (startswith w [pound]); [|exact IH].
    destruct (float_of_str (skipn 1 w)) as [f|] eqn:Hf; [|discriminate].
    intros E. injection E as <-.
    apply add_float_sign; [exact Ht|]. apply (@float_of_str_sign _ f Hf).
Qed.

Lemma total_cost_from_sign (ts : list task) :
  forall total total',
    num_non_negative total = true ->
    total_cost_from ts total = inr total' ->
    num_non_negative total' = true.
Proof.
  induction ts as [|t ts IH]; intros total total' Ht; cbn [total_cost_from].
  - intros E. injection E as <-. exact Ht.
  - destruct (add_first_price (split (trimmed_desc t)) total) as [e|t1] eqn:H1;
      [discriminate|].
    apply IH. apply (@add_first_price_sign _ total t1 Ht H1).
Qed.

(** X8.  A total that [_get_total_cost] returns is never a negative
    number: it is the integer 0, or a float whose sign bit is clear (a
    number that is zero or more, [inf], or [nan]).  A sign written in a
    content is removed with the other punctuation before the price is
    read. *)
Theorem get_total_cost_non_negative (ts : list task) (total : num) :
  _get_total_cost ts = inr total -> num_non_negative total = true.
Proof.
  unfold _get_total_cost. apply total_cost_from_sign. reflexivity.
Qed.

Lemma get_total_cost_non_negative_witness :
  _get_total_cost [task_of_content "Refund £-5"]
  = inr (PyFloat (of_decimal 5 0))
  /\ num_non_negative (PyFloat (of_decimal 5 0)) = true.
Proof.
  split.
  - vm_compute. reflexivity.
  - apply (@get_total_cost_non_negative [task_of_content "Refund £-5"]).
    vm_compute. reflexivity.
Defined.

(** ** Tasks without a price *)

Lemma split_from_chars (s : str) :
  forall (acc w : str) (c : codepoint),
    In w (split_from acc s) -> In c w -> In c acc \/ In c s.
Proof.
  induction s as [|x s IH]; intros acc w c Hw Hc; cbn [split_from] in Hw.
  - destruct acc as [|a acc]; cbn [flush In] in Hw; [contradiction|].
    destruct Hw as [<-|[]]. left. exact Hc.
  - destruct (isspace x).
    + apply in_app_or in Hw. destruct Hw as [Hw|Hw].
      * destruct acc as [|a acc]; cbn [flush In] in Hw; [contradiction|].
        destruct Hw as [<-|[]]. left. exact Hc.
      * destruct (IH [] w c Hw Hc) as [[]|H]. right. right. exact H.
    + destruct (IH (acc ++ [x]) w c Hw Hc) as [H|H].
      * apply in_app_or in H. destruct H as [H|[<-|[]]].
        -- left. exact H.
        -- right. left. reflexivity.
      * right. right. exact H.
Qed.

Lemma startswith_pound (w : str) :
  startswith w [pound] = true -> In pound w.
Proof.
  destruct w as [|x w]; cbn [startswith]; [discriminate|].
  rewrite andb_true_iff. intros [Hx _]. apply N.eqb_eq in Hx. subst x.
  left. reflexivity.
Qed.

Lemma contribution_no_pound (t : task) :
  ~ In pound (t_content t) -> contribution t = inr None.
Proof.
  intros Hn. unfold contribution.
  destruct (find _ _) as [w|] eqn:Hf; [|reflexivity].
  exfalso. apply find_some in Hf. destruct Hf as [Hw Hs].
  apply startswith_pound in Hs.
  destruct (split_from_chars _ _ _ _ Hw Hs) as [[]|H].
  apply Hn. unfold trimmed_desc in H. apply filter_In in H. apply H.
Qed.

Lemma total_cost_from_app (ts1 ts2 : list task) :
  forall total,
    total_cost_from (ts1 ++ ts2) total
    = match total_cost_from ts1 total with
      | inl e => inl e
      | inr total1 => total_cost_from ts2 total1
      end.
Proof.
  induction ts1 as [|t ts1 IH]; intros total; cbn [app total_cost_from].
  - reflexivity.
  - destruct (add_first_price _ total); [reflexivity | apply IH].
Qed.

(** X9.  A task whose content holds no pound sign has no effect on the
    total, wherever it stands in the list: it adds nothing and cannot make
    the call raise. *)
Theorem get_total_cost_skips_unpriced (ts1 ts2 : list task) (t : task) :
  ~ In pound (t_content t) ->
  _get_total_cost (ts1 ++ t :: ts2) = _get_total_cost (ts1 ++ ts2).
Proof.
  intros Hn. unfold _get_total_cost. rewrite !total_cost_from_app.
  destruct (total_cost_from ts1 (PyInt 0)) as [e|total1]; [reflexivity|].
  cbn [total_cost_from]. rewrite add_first_price_contribution.
  rewrite (contribution_no_pound _ Hn). reflexivity.
Qed.

Lemma get_total_cost_skips_unpriced_witness :
  _get_total_cost
    ([task_of_content "£10 £20"]
     ++ task_of_content "No price here"
     :: [task_of_content "Buy milk £3.50 and eggs"])
  = _get_total_cost
      ([task_of_content "£10 £20"]
       ++ [task_of_content "Buy milk £3.50 and eggs"]).
Proof.
  apply (@get_total_cost_skips_unpriced [task_of_content "£10 £20"]
           [task_of_content "Buy milk £3.50 and eggs"]
           (task_of_content "No price here")).
  vm_compute. intuition discriminate.
Defined.

(** ** The end of the calendar *)




(** ** The schedule in closed form *)

(** X11.  On a date on which the schedule exists, the twelve dates after
    the sort are the first days of the current month and of the eleven
    months that follow it, in this order, running into the next year
    after December; the schedule is the label of the current month,
    "Backlog", and the labels of those eleven months. *)
Theorem expected_sections_rolling (now : datetime) :
  schedulable now ->
  exists dts,
    expected_dts now = inr dts
    /\ sort dts
       = map (rolling now) [0; 1; 2; 3; 4; 5; 6; 7; 8; 9; 10; 11]%Z
    /\ _get_expected_sections now
       = inr (strftime_B_Y now :: u "Backlog"
              :: map (fun k => strftime_B_Y (rolling now k))
                   [1; 2; 3; 4; 5; 6; 7; 8; 9; 10; 11]%Z).
Proof. exact (@schedule_rolling now). Qed.

Lemma expected_sections_rolling_witness :
  exists dts,
    expected_dts now0 = inr dts
    /\ sort dts
       = map (rolling now0) [0; 1; 2; 3; 4; 5; 6; 7; 8; 9; 10; 11]%Z
    /\ _get_expected_sections now0
       = inr (strftime_B_Y now0 :: u "Backlog"
              :: map (fun k => strftime_B_Y (rolling now0 k))
                   [1; 2; 3; 4; 5; 6; 7; 8; 9; 10; 11]%Z).
Proof.
  apply (@expected_sections_rolling now0).
  unfold schedulable, valid, now0, MINYEAR, MAXYEAR; cbn. lia.
Defined.

(** ** Words and titles *)

Lemma split_from_nospace (x : str) :
  forall (acc s : str),
    nospace x = true -> split_from acc (x ++ s) = split_from (acc ++ x) s.
Proof.
  unfold nospace.
  induction x as [|c x IH]; intros acc s H; cbn [app].
  - rewrite app_nil_r. reflexivity.
  - cbn [forallb] in H. apply andb_true_iff in H. destruct H as [Hc Hx].
    apply negb_true_iff in Hc. cbn [split_from]. rewrite Hc.
    rewrite (IH (acc ++ [c]) s Hx), <- app_assoc. reflexivity.
Qed.

Lemma word_nospace (w : str) : word w = true -> nospace w = true.
Proof. destruct w; [discriminate | intros H; exact H]. Qed.

Lemma flush_word (w : str) : word w = true -> flush w = [w].
Proof. destruct w; [discriminate | reflexivity]. Qed.

(** A word followed by white space is the first word of the text. *)
Lemma split_word_space (w s : str) (c : codepoint) :
  word w = true -> isspace c = true ->
  split (w ++ c :: s) = w :: split s.
Proof.
  intros Hw Hc. unfold split.
  rewrite (split_from_nospace w [] (c :: s) (word_nospace w Hw)).
  cbn [app split_from]. rewrite Hc, (flush_word w Hw). reflexivity.
Qed.

Lemma nospace_app (a b : str) :
  nospace (a ++ b) = nospace a && nospace b.
Proof. unfold nospace. apply forallb_app. Qed.



(** The first two words of a text that starts with two words and a
    space. *)
Lemma first_two_words (w1 w2 s : str) :
  word w1 = true -> word w2 = true ->
  firstn 2 (split ((w1 ++ [space] ++ w2) ++ space :: s)) = [w1; w2].
Proof.
  intros H1 H2. rewrite <- app_assoc. cbn [app].
  rewrite (split_word_space w1 _ space H1 eq_refl).
  rewrite (split_word_space w2 _ space H2 eq_refl). reflexivity.
Qed.






(** ** Renaming and the labels *)

Lemma isspace_letter (c : codepoint) :
  (33 <= c <= 132)%N -> isspace c = false.
Proof.
  intros H. unfold isspace.
  replace (c <=? 13)%N with false by (symmetry; apply N.leb_gt; lia).
  replace (c <=? 32)%N with false by (symmetry; apply N.leb_gt; lia).
  replace (8192 <=? c)%N with false by (symmetry; apply N.leb_gt; lia).
  replace (c =? 133)%N with false by (symmetry; apply N.eqb_neq; lia).
  replace (c =? 160)%N with false by (symmetry; apply N.eqb_neq; lia).
  replace (c =? 5760)%N with false by (symmetry; apply N.eqb_neq; lia).
  replace (c =? 8232)%N with false by (symmetry; apply N.eqb_neq; lia).
  replace (c =? 8233)%N with false by (symmetry; apply N.eqb_neq; lia).
  replace (c =? 8239)%N with false by (symmetry; apply N.eqb_neq; lia).
  replace (c =? 8287)%N with false by (symmetry; apply N.eqb_neq; lia).
  replace (c =? 12288)%N with false by (symmetry; apply N.eqb_neq; lia).
  rewrite !andb_false_r. reflexivity.
Qed.

Lemma lower_cp_space (c : codepoint) :
  isspace c = true -> lower_cp c = [c].
Proof.
  intros H. unfold lower_cp.
  destruct ((65 <=? c) && (c <=? 90))%N eqn:Hu.
  - apply andb_true_iff in Hu. destruct Hu as [H1 H2].
    apply N.leb_le in H1, H2.
    rewrite isspace_letter in H by lia. discriminate.
  - destruct (N.eqb_spec c 304) as [->|_]; [discriminate|].
    destruct (N.eqb_spec c 8490) as [->|_]; [discriminate|].
    reflexivity.
Qed.

Lemma lower_cp_nospace (c : codepoint) :
  isspace c = false -> nospace (lower_cp c) = true.
Proof.
  intros H. unfold nospace, lower_cp.
  destruct ((65 <=? c) && (c <=? 90))%N eqn:Hu.
  - apply andb_true_iff in Hu. destruct Hu as [H1 H2].
    apply N.leb_le in H1, H2. cbn [forallb].
    rewrite isspace_letter by lia. reflexivity.
  - destruct (c =? 304)%N; [reflexivity|].
    destruct (c =? 8490)%N; [reflexivity|].
    cbn [forallb]. rewrite H. reflexivity.
Qed.

Lemma lower_cp_not_nil (c : codepoint) : lower_cp c <> [].
Proof.
  unfold lower_cp.
  destruct ((65 <=? c) && (c <=? 90))%N; [discriminate|].
  destruct (c =? 304)%N; [discriminate|].
  destruct (c =? 8490)%N; discriminate.
Qed.

Lemma flush_lower (acc : str) : flush (lower acc) = map lower (flush acc).
Proof.
  destruct acc as [|c acc]; [reflexivity|].
  cbn [flush map]. change (lower (c :: acc)) with (lower_cp c ++ lower acc).
  destruct (lower_cp c) as [|x l] eqn:E; [|reflexivity].
  exfalso. apply (lower_cp_not_nil c E).
Qed.

(** Lowering a text lowers its words. *)
Lemma split_from_lower (s : str) :
  forall acc,
    split_from (lower acc) (lower s) = map lower (split_from acc s).
Proof.
  induction s as [|c s IH]; intros acc.
  - cbn [lower flat_map split_from]. apply flush_lower.
  - change (lower (c :: s)) with (lower_cp c ++ lower s).
    cbn [split_from]. destruct (isspace c) eqn:Hc.
    + rewrite (lower_cp_space c Hc). cbn [app split_from]. rewrite Hc.
      rewrite map_app, <- flush_lower. f_equal. apply (IH []).
    + rewrite (split_from_nospace (lower_cp c) _ _ (lower_cp_nospace c Hc)).
      rewrite <- IH. rewrite lower_app. cbn [lower flat_map].
      rewrite app_nil_r. reflexivity.
Qed.

Lemma split_lower (s : str) : split (lower s) = map lower (split s).
Proof. apply (split_from_lower s []). Qed.

Lemma join_lower (ws : list str) :
  lower (join [space] ws) = join [space] (map lower ws).
Proof.
  induction ws as [|w [|w' ws] IH]; try reflexivity.
  change (join [space] (w :: w' :: ws))
    with (w ++ [space] ++ join [space] (w' :: ws)).
  rewrite !lower_app, IH. reflexivity.
Qed.

Lemma startswith_prefix (s p : str) :
  startswith s p = true -> exists r, s = p ++ r.
Proof.
  revert s. induction p as [|c p IH]; intros s H.
  - exists s. reflexivity.
  - destruct s as [|x s]; cbn [startswith] in H; [discriminate|].
    apply andb_true_iff in H. destruct H as [Hx Hs].
    apply N.eqb_eq in Hx. subst x.
    destruct (IH s Hs) as [r ->]. exists r. reflexivity.
Qed.

Lemma startswith_app_l (a b p : str) :
  startswith a p = true -> startswith (a ++ b) p = true.
Proof.
  intros H. destruct (startswith_prefix a p H) as [r ->].
  rewrite <- app_assoc. apply startswith_app.
Qed.

(** When a word is being read, the first word found starts with it. *)
Lemma split_from_started (s : str) :
  forall acc, word acc = true ->
              exists x rest, split_from acc s = (acc ++ x) :: rest.
Proof.
  induction s as [|c s IH]; intros acc Hacc; cbn [split_from].
  - exists [], []. rewrite app_nil_r. apply flush_word. exact Hacc.
  - destruct (isspace c) eqn:Hc.
    + exists [], (split_from [] s). rewrite app_nil_r, (flush_word acc Hacc).
      reflexivity.
    + assert (Hw : word (acc ++ [c]) = true).
      { destruct acc as [|a acc]; [discriminate|].
        cbn [app word]. cbn [word] in Hacc.
        change (a :: acc ++ [c]) with ((a :: acc) ++ [c]).
        rewrite nospace_app, Hacc. unfold nospace. cbn [forallb].
        rewrite Hc. reflexivity. }
      destruct (IH (acc ++ [c]) Hw) as [x [rest Hx]].
      exists (c :: x), rest. rewrite Hx, <- app_assoc. reflexivity.
Qed.

Lemma startswith_join (w : str) (ws : list str) (p : str) :
  startswith w p = true -> startswith (join [space] (w :: ws)) p = true.
Proof.
  intros H. destruct ws as [|w' ws]; cbn [join].
  - exact H.
  - apply startswith_app_l. exact H.
Qed.

(** The first two words of a text, joined, still start with the label
    the text starts with. *)
Lemma first_words_keep_label (n p : str) :
  label_shaped p ->
  startswith n p = true ->
  startswith (join [space] (firstn 2 (split n))) p = true.
Proof.
  intros Hp Hn. destruct (startswith_prefix n p Hn) as [r ->].
  destruct Hp as [Hw | [w1 [w2 [-> [H1 H2]]]]].
  - unfold split.
    rewrite (split_from_nospace p [] r (word_nospace p Hw)). cbn [app].
    destruct (split_from_started r p Hw) as [x [rest ->]].
    change (firstn 2 ((p ++ x) :: rest)) with ((p ++ x) :: firstn 1 rest).
    apply startswith_join. apply startswith_app.
  - rewrite <- app_assoc. cbn [app].
    rewrite (split_word_space w1 _ space H1 eq_refl). unfold split.
    rewrite (split_from_nospace w2 [] r (word_nospace w2 H2)). cbn [app].
    destruct (split_from_started r w2 H2) as [x [rest ->]].
    cbn [firstn join].
    replace (w1 ++ [space] ++ w2 ++ x) with ((w1 ++ space :: w2) ++ x).
    + apply startswith_app.
    + rewrite <- app_assoc. reflexivity.
Qed.

(** *** The labels of the schedule are made of words *)

Lemma digits_of_isdigit (fuel : nat) :
  forall n acc,
    forallb isdigit acc = true -> forallb isdigit (digits_of fuel n acc) = true.
Proof.
  induction fuel as [|fuel IH]; intros n acc H; cbn [digits_of].
  - exact H.
  - assert (H' : forallb isdigit ((48 + n mod 10)%N :: acc) = true).
    { cbn [forallb]. rewrite H. unfold isdigit.
      assert (Hd : (n mod 10 < 10)%N)
        by (apply N.mod_upper_bound; discriminate).
      generalize dependent (n mod 10)%N. intros d Hd.
      replace (48 <=? 48 + d)%N with true
        by (symmetry; apply N.leb_le; lia).
      replace (48 + d <=? 57)%N with true
        by (symmetry; apply N.leb_le; lia).
      reflexivity. }
    destruct (n <? 10)%N; [exact H' | apply IH; exact H'].
Qed.

Lemma digits_of_not_nil (fuel : nat) :
  forall n acc, acc <> [] -> digits_of fuel n acc <> [].
Proof.
  induction fuel as [|fuel IH]; intros n acc H; cbn [digits_of].
  - exact H.
  - destruct (n <? 10)%N; [discriminate | apply IH; discriminate].
Qed.

Lemma of_N_isdigit (n : N) : forallb isdigit (of_N n) = true.
Proof. unfold of_N. apply digits_of_isdigit. reflexivity. Qed.

Lemma of_N_not_nil (n : N) : of_N n <> [].
Proof.
  unfold of_N. cbn [digits_of].
  destruct (n <? 10)%N; [discriminate | apply digits_of_not_nil; discriminate].
Qed.

Lemma isdigit_range (c : codepoint) : isdigit c = true -> (48 <= c <= 57)%N.
Proof.
  unfold isdigit. rewrite andb_true_iff, !N.leb_le. intros H; exact H.
Qed.

Lemma lower_digits (s : str) : forallb isdigit s = true -> lower s = s.
Proof.
  induction s as [|c s IH]; cbn [forallb]; [reflexivity|].
  rewrite andb_true_iff. intros [Hc Hs]. apply isdigit_range in Hc.
  change (lower (c :: s)) with (lower_cp c ++ lower s). rewrite (IH Hs).
  unfold lower_cp.
  replace (c <=? 90)%N with true by (symmetry; apply N.leb_le; lia).
  replace (65 <=? c)%N with false by (symmetry; apply N.leb_gt; lia).
  replace (c =? 304)%N with false by (symmetry; apply N.eqb_neq; lia).
  replace (c =? 8490)%N with false by (symmetry; apply N.eqb_neq; lia).
  reflexivity.
Qed.

Lemma digits_word (s : str) :
  forallb isdigit s = true -> s <> [] ->
  word s = true /\ no_paren s = true.
Proof.
  intros H Hn. destruct s as [|c s]; [contradiction|].
  cbn [word]. clear Hn. unfold nospace, no_paren.
  induction (c :: s) as [|x l IH]; cbn [forallb] in *; [split; reflexivity|].
  apply andb_true_iff in H. destruct H as [Hx Hl].
  destruct (IH Hl) as [H1 H2]. rewrite H1, H2.
  apply isdigit_range in Hx. rewrite isspace_letter by lia.
  unfold lparen, rparen.
  replace (x =? 40)%N with false by (symmetry; apply N.eqb_neq; lia).
  replace (x =? 41)%N with false by (symmetry; apply N.eqb_neq; lia).
  split; reflexivity.
Qed.

Lemma no_paren_app (a b : str) :
  no_paren (a ++ b) = no_paren a && no_paren b.
Proof. unfold no_paren. apply forallb_app. Qed.

(** The lowered label of a date: the month, a space, the year. *)
Lemma strftime_shaped (d : datetime) :
  (1 <= month d <= 12)%Z ->
  label_shaped (lower (strftime_B_Y d))
  /\ no_paren (lower (strftime_B_Y d)) = true.
Proof.
  intros Hm. unfold strftime_B_Y. rewrite !lower_app.
  change (lower [space]) with [space].
  rewrite (@lower_digits _ (of_N_isdigit _)).
  destruct (@digits_word _ (of_N_isdigit (Z.to_N (year d)))
              (@of_N_not_nil _)) as [Hw Hp].
  assert (Hmonth : word (lower (month_name (month d))) = true
                   /\ no_paren (lower (month_name (month d))) = true).
  { apply in_months in Hm. unfold months in Hm. cbn [In] in Hm.
    repeat (destruct Hm as [<- | Hm]; [split; vm_compute; reflexivity|]).
    contradiction. }
  destruct Hmonth as [Hw' Hp']. split.
  - right. eexists. eexists. split; [reflexivity|]. split; assumption.
  - rewrite !no_paren_app, Hp, Hp'. reflexivity.
Qed.

Lemma schedule_labels_shaped (now : datetime) (expected : list str) :
  schedulable now ->
  _get_expected_sections now = inr expected ->
  forall L, In L expected ->
            label_shaped (lower L) /\ no_paren (lower L) = true.
Proof.
  intros H He L HL.
  destruct (schedule_rolling H) as [dts [_ [_ He']]].
  rewrite He in He'. injection He' as ->.
  destruct H as [[_ [Hm _]] _].
  destruct HL as [<- | [<- | HL]].
  - apply strftime_shaped. exact Hm.
  - split; [left|]; vm_compute; reflexivity.
  - cbn [In] in HL.
    repeat (destruct HL as [<- | HL];
            [apply strftime_shaped; apply rolling_month|]).
    contradiction.
Qed.

(** *** A title keeps the label of the name *)

Lemma startswith_nil (s : str) : startswith s [] = true.
Proof. destruct s; reflexivity. Qed.

Lemma startswith_app_same (a b q : str) :
  startswith (a ++ b) (a ++ q) = startswith b q.
Proof.
  induction a as [|c a IH]; cbn [app startswith]; [reflexivity|].
  rewrite N.eqb_refl, IH. reflexivity.
Qed.

Lemma startswith_app_inv (a b p : str) :
  startswith (a ++ b) p = true ->
  startswith a p = true \/ exists q, p = a ++ q /\ startswith b q = true.
Proof.
  revert p. induction a as [|c a IH]; intros p H; cbn [app] in H.
  - right. exists p. split; [reflexivity | exact H].
  - destruct p as [|y p]; [left; reflexivity|].
    cbn [startswith] in H |- *. apply andb_true_iff in H.
    destruct H as [Hc Hp]. rewrite Hc. cbn [andb].
    destruct (IH p Hp) as [Ha | [q [-> Hq]]].
    + left. exact Ha.
    + right. exists q. apply N.eqb_eq in Hc. subst y.
      split; [reflexivity | exact Hq].
Qed.

(** Replacing a character a label does not hold keeps the label in
    front. *)
Lemma replace_keeps_prefix (c : codepoint) (r : str) :
  lower_cp c = [c] ->
  forall (W p : str),
    ~ In c p ->
    startswith (lower W) p = true ->
    startswith (lower (replace c r W)) p = true.
Proof.
  intros Hc. induction W as [|x W IH]; intros p Hp H.
  - exact H.
  - change (replace c r (x :: W))
      with ((if (x =? c)%N then r else [x]) ++ replace c r W).
    change (lower (x :: W)) with (lower_cp x ++ lower W) in H.
    destruct (N.eqb_spec x c) as [->|Hx].
    + rewrite Hc in H. destruct p as [|y p]; [apply startswith_nil|].
      cbn [app startswith] in H. apply andb_true_iff in H.
      destruct H as [Hy _]. apply N.eqb_eq in Hy. subst y.
      exfalso. apply Hp. left. reflexivity.
    + rewrite lower_app. change (lower [x]) with (lower_cp x ++ []).
      rewrite app_nil_r.
      destruct (@startswith_app_inv _ _ _ H) as [Ha | [q [-> Hq]]].
      * apply startswith_app_l. exact Ha.
      * rewrite startswith_app_same. apply IH; [|exact Hq].
        intros Hin. apply Hp. apply in_or_app. right. exact Hin.
Qed.

Lemma no_paren_not_in (p : str) :
  no_paren p = true -> ~ In lparen p /\ ~ In rparen p.
Proof.
  unfold no_paren. induction p as [|x p IH]; cbn [forallb In].
  - intros _. split; intros [].
  - rewrite andb_true_iff, negb_true_iff, orb_false_iff, !N.eqb_neq.
    intros [[H1 H2] Hp]. destruct (IH Hp) as [I1 I2].
    split; intros [E|E]; congruence || contradiction.
Qed.

Lemma mark_overspend_keeps_prefix (W p : str) :
  no_paren p = true ->
  startswith (lower W) p = true ->
  startswith (lower (mark_overspend W)) p = true.
Proof.
  intros Hp H. destruct (@no_paren_not_in p Hp) as [Hl Hr].
  unfold mark_overspend.
  apply (@replace_keeps_prefix rparen (u " !!!") eq_refl _ p Hr).
  apply (@replace_keeps_prefix lparen (u "!!! ") eq_refl _ p Hl). exact H.
Qed.

Lemma first_words_match (name L : str) :
  label_shaped (lower L) ->
  matches name L = true ->
  startswith (lower (join [space] (firstn 2 (split name)))) (lower L) = true.
Proof.
  unfold matches. intros Hs H.
  rewrite join_lower, <- firstn_map, <- split_lower.
  apply first_words_keep_label; assumption.
Qed.

Lemma plain_title_keeps_label fr name cost L :
  label_shaped (lower L) ->
  matches name L = true ->
  matches (plain_title fr name cost) L = true.
Proof.
  intros Hs H. unfold matches, plain_title. rewrite lower_app.
  apply startswith_app_l. apply first_words_match; assumption.
Qed.

Lemma marked_title_keeps_label fr name cost L :
  label_shaped (lower L) -> no_paren (lower L) = true ->
  matches name L = true ->
  matches (mark_overspend (plain_title fr name cost)) L = true.
Proof.
  intros Hs Hp H. unfold matches, plain_title.
  rewrite mark_overspend_app, lower_app. apply startswith_app_l.
  apply mark_overspend_keeps_prefix; [exact Hp|].
  apply first_words_match; assumption.
Qed.

Lemma startswith_matches (s p : str) :
  startswith s p = true -> matches s p = true.
Proof.
  intros H. destruct (startswith_prefix s p H) as [r ->].
  unfold matches. rewrite lower_app. apply startswith_app.
Qed.

(** X13.  A rename never takes a section away from its label: when the
    name of a section carries a label of the schedule, the title
    [set_section_titles] expects for it carries the same label, be it
    "Backlog", the plain title or the title with the overspend marks. *)
Theorem expected_title_keeps_label (now : datetime) (fr : float64 -> str)
    (secs : list section) (ts : list task) (s : section)
    (expected : list str) (L title : str) :
  schedulable now ->
  _get_expected_sections now = inr expected ->
  In L expected ->
  matches (s_name s) L = true ->
  expected_title now fr secs ts s = inr title ->
  matches title L = true.
Proof.
  intros H He HL HM Ht.
  destruct (@schedule_labels_shaped now expected H He L HL) as [Hs Hp].
  unfold expected_title in Ht.
  destruct (startswith (s_name s) (u "Backlog")) eqn:Hb.
  - injection Ht as <-.
    destruct (expected_sections_keyed H) as [expected' [He' Hk]].
    rewrite He in He'. injection He' as <-.
    destruct (schedule_rolling H) as [dts [_ [_ He'']]].
    rewrite He in He''. injection He'' as Hexp.
    assert (HB : In (u "Backlog") expected).
    { rewrite Hexp. right. left. reflexivity. }
    rewrite (@keyed_exclusive expected (s_name s) L (u "Backlog") Hk HL HB HM
               (@startswith_matches _ _ Hb)).
    vm_compute. reflexivity.
  - destruct (_get_total_cost _) as [e|cost]; [discriminate|].
    destruct (opt_eqb _ _ && gt_int cost MONTHLY_BUDGET);
      injection Ht as <-.
    + apply marked_title_keeps_label; assumption.
    + apply plain_title_keeps_label; assumption.
Qed.

Lemma expected_title_keeps_label_witness :
  matches (u "November 2026 !!! £550.0 / £500 !!!") (u "November 2026")
  = true.
Proof.
  eapply (@expected_title_keeps_label now0 repr_integral (sections w_spend)
            (tasks w_spend) (sec "cur" "November 2026 (£0 / £500)")).
  - unfold schedulable, valid, now0, MINYEAR, MAXYEAR; cbn. lia.
  - vm_compute. reflexivity.
  - left. vm_compute. reflexivity.
  - vm_compute. reflexivity.
  - vm_compute. reflexivity.
Defined.

(** ** Titles do not read the state of a task *)

Lemma total_cost_from_contents (ts1 : list task) :
  forall ts2 total,
    map t_content ts1 = map t_content ts2 ->
    total_cost_from ts1 total = total_cost_from ts2 total.
Proof.
  induction ts1 as [|t1 ts1 IH]; intros [|t2 ts2] total H;
    cbn [map] in H; try discriminate; [reflexivity|].
  injection H as Hc Hr. cbn [total_cost_from]. unfold trimmed_desc.
  rewrite Hc. destruct (add_first_price _ total); [reflexivity|].
  apply IH. exact Hr.
Qed.

Lemma tasks_for_section_contents (id : str) (ts1 : list task) :
  forall ts2,
    map priced ts1 = map priced ts2 ->
    map t_content
      (filter (fun t => opt_eqb (t_section_id t) (Some id)) ts1)
    = map t_content
        (filter (fun t => opt_eqb (t_section_id t) (Some id)) ts2).
Proof.
  induction ts1 as [|t1 ts1 IH]; intros [|t2 ts2] H;
    cbn [map] in H; try discriminate; [reflexivity|].
  injection H as Hs Hc Hr. cbn [filter]. rewrite Hs.
  destruct (opt_eqb (t_section_id t2) (Some id)); cbn [map];
    rewrite (IH ts2 Hr); [rewrite Hc|]; reflexivity.
Qed.

(** X15.  The expected title of a section reads of the tasks only their
    section and their content: two task lists that agree on these give
    the same title, whatever the tasks' identifiers and their [checked]
    and [is_deleted] flags are.  A completed or deleted task counts in
    the cost like an open one. *)
Theorem expected_title_ignores_flags (now : datetime) (fr : float64 -> str)
    (secs : list section) (ts1 ts2 : list task) (s : section) :
  map priced ts1 = map priced ts2 ->
  expected_title now fr secs ts1 s = expected_title now fr secs ts2 s.
Proof.
  intros H. unfold expected_title, _get_total_cost.
  rewrite (total_cost_from_contents _ _ (PyInt 0)
             (tasks_for_section_contents (s_id s) ts1 ts2 H)).
  reflexivity.
Qed.

Lemma expected_title_ignores_flags_witness :
  expected_title now0 repr_integral (sections w_spend) (tasks w_spend)
    (sec "dec" "December 2026 (£0 / £500)")
  = expected_title now0 repr_integral (sections w_spend) tasks_flipped
      (sec "dec" "December 2026 (£0 / £500)").
Proof.
  apply (@expected_title_ignores_flags now0 repr_integral (sections w_spend)
           (tasks w_spend) tasks_flipped).
  vm_compute. reflexivity.
Defined.

(** ** The pass on an empty board *)

Lemma month_name_word (m : Z) :
  (1 <= m <= 12)%Z ->
  word (month_name m) = true
  /\ startswith (month_name m) [66%N] = false.
Proof.
  intros Hm. apply in_months in Hm. unfold months in Hm. cbn [In] in Hm.
  repeat (destruct Hm as [<- | Hm]; [split; vm_compute; reflexivity|]).
  contradiction.
Qed.

Lemma startswith_first (s p : str) (c : codepoint) :
  startswith s [c] = false -> startswith s (c :: p) = false.
Proof.
  destruct s as [|x s]; cbn [startswith]; [reflexivity|].
  rewrite startswith_nil, andb_true_r. intros ->. reflexivity.
Qed.

Lemma eqb_first (s p : str) (c : codepoint) :
  startswith s [c] = false -> Str.eqb s (c :: p) = false.
Proof.
  destruct s as [|x s]; cbn [startswith Str.eqb]; [reflexivity|].
  rewrite startswith_nil, andb_true_r. intros ->. reflexivity.
Qed.

(** A fresh section of a month: its title is the label with a cost of
    0, which is not the name it was created with. *)
Lemma fresh_month_title now fr secs (s : section) (d : datetime) :
  (1 <= month d <= 12)%Z ->
  s_name s = default_name (strftime_B_Y d) ->
  expected_title now fr secs [] s = inr (fresh_title (strftime_B_Y d))
  /\ fresh_title (strftime_B_Y d) <> s_name s.
Proof.
  intros Hm Hs. destruct (month_name_word Hm) as [Hw Hb].
  destruct (@digits_word _ (of_N_isdigit (Z.to_N (year d)))
              (@of_N_not_nil _)) as [Hy _].
  assert (Hfirst : forall b, startswith (month_name (month d) ++ b) [66%N]
                              = false).
  { intros b. destruct (month_name (month d)) as [|x l]; [discriminate|].
    cbn [app startswith] in Hb |- *.
    rewrite startswith_nil in Hb |- *. exact Hb. }
  assert (HB : startswith (strftime_B_Y d ++ u " (£0.00 / £"
                             ++ str_of_Z MONTHLY_BUDGET ++ u ")")
                 (u "Backlog") = false).
  { apply startswith_first. unfold strftime_B_Y. rewrite <- !app_assoc.
    apply Hfirst. }
  assert (HE : Str.eqb (strftime_B_Y d) (u "Backlog") = false).
  { apply eqb_first. unfold strftime_B_Y. apply Hfirst. }
  unfold fresh_title. rewrite HE. split.
  - unfold expected_title. rewrite Hs. unfold default_name. rewrite HB.
    cbn [filter _get_total_cost total_cost_from gt_int].
    rewrite andb_false_r. unfold plain_title.
    replace (firstn 2 (split (strftime_B_Y d ++ u " (£0.00 / £"
                                ++ str_of_Z MONTHLY_BUDGET ++ u ")")))
      with [month_name (month d); of_N (Z.to_N (year d))].
    + reflexivity.
    + symmetry. unfold strftime_B_Y.
      change (u " (£0.00 / £") with (space :: u "(£0.00 / £"). cbn [app].
      apply first_two_words; assumption.
  - rewrite Hs. unfold default_name. intros E.
    apply app_inv_head in E. vm_compute in E. discriminate.
Qed.

Lemma fresh_backlog_title now fr secs (s : section) :
  s_name s = default_name (u "Backlog") ->
  expected_title now fr secs [] s = inr (fresh_title (u "Backlog"))
  /\ fresh_title (u "Backlog") <> s_name s.
Proof.
  intros Hs. split.
  - unfold expected_title. rewrite Hs. reflexivity.
  - rewrite Hs. vm_compute. discriminate.
Qed.

Lemma fresh_label_title now fr secs (s : section) (L : str) :
  plain_label L ->
  s_name s = default_name L ->
  expected_title now fr secs [] s = inr (fresh_title L)
  /\ fresh_title L <> s_name s.
Proof.
  intros [-> | [d [Hm ->]]] Hs.
  - apply fresh_backlog_title. exact Hs.
  - apply fresh_month_title; assumption.
Qed.

Lemma schedule_plain_labels (now : datetime) (expected : list str) :
  schedulable now ->
  _get_expected_sections now = inr expected ->
  Forall plain_label expected.
Proof.
  intros H He.
  destruct (schedule_rolling H) as [dts [_ [_ He']]].
  rewrite He in He'. injection He' as ->.
  destruct H as [[_ [Hm _]] _].
  constructor; [right; exists now; split; [exact Hm | reflexivity]|].
  constructor; [left; reflexivity|].
  repeat (constructor;
          [right; eexists; split; [apply rolling_month | reflexivity]|]).
  constructor.
Qed.

Lemma fresh_titles now fr secs pid uuid4 (ls : list str) :
  Forall plain_label ls ->
  forall n,
    map_result (expected_title now fr secs [])
      (create_secs pid uuid4 n ls)
    = inr (map fresh_title ls)
    /\ due_renames (create_secs pid uuid4 n ls) (map fresh_title ls)
       = combine (map s_id (create_secs pid uuid4 n ls))
           (map fresh_title ls).
Proof.
  induction 1 as [|L ls HL _ IH]; intros n.
  - split; reflexivity.
  - destruct (IH (n + 3)) as [IH1 IH2].
    destruct (@fresh_label_title now fr secs
                {| s_id := uuid4 n; s_name := default_name L;
                   s_project_id := pid |} L HL eq_refl) as [Ht Hne].
    cbn [s_name] in Hne. split.
    + cbn [create_secs map_result map]. rewrite Ht, IH1. reflexivity.
    + unfold due_renames in *. cbn [create_secs map combine filter fst snd
                                      s_name s_id].
      destruct (str_eq_dec (fresh_title L) (default_name L)) as [E|_];
        [contradiction|].
      cbn [map fst snd s_id]. rewrite IH2. reflexivity.
Qed.

Lemma created_wanted pid uuid4 (expected ls : list str) :
  incl ls expected ->
  forall n, existsb (unwanted expected) (create_secs pid uuid4 n ls) = false.
Proof.
  induction ls as [|L ls IH]; intros Hin n; cbn [create_secs existsb].
  - reflexivity.
  - rewrite IH by (intros x Hx; apply Hin; right; exact Hx).
    rewrite orb_false_r. unfold unwanted. cbn [s_name].
    apply negb_false_iff. apply existsb_exists. exists L.
    split; [apply Hin; left; reflexivity | apply matches_default_name].
Qed.

Lemma length_create_secs pid uuid4 ls :
  forall n, List.length (create_secs pid uuid4 n ls) = List.length ls.
Proof.
  induction ls as [|L ls IH]; intros n; cbn [create_secs List.length].
  - reflexivity.
  - rewrite IH. reflexivity.
Qed.

(** X14.  On a board without sections and tasks the pass hands to
    [do_update] 27 commands: the 13 create commands of the schedule, one
    reorder command for the 13 new records at the positions 1 to 13, and
    13 rename commands, since a section created as "<label> (£0.00 /
    £500)" is expected to be titled "<label> (£0 / £500)", or "Backlog".
    The reorder and the renames name the identifiers of the working-set
    records. *)
Theorem do_housekeeping_empty_board (now : datetime) (pid : str)
    (uuid4 : nat -> str) (fr : float64 -> str) (w : world) :
  schedulable now ->
  sections w = [] ->
  tasks w = [] ->
  exists expected c4,
    _get_expected_sections now = inr expected
    /\ fst (do_housekeeping now pid uuid4 fr w)
       = inr (create_cmds pid uuid4 (drawn w) expected
              ++ [section_reorder (uuid4 (drawn w + 39))
                    (combine
                       (map s_id (create_secs pid uuid4 (drawn w) expected))
                       (seq 1 13))]
              ++ c4)
    /\ map rename_of c4
       = map Some
           (combine (map s_id (create_secs pid uuid4 (drawn w) expected))
              (map fresh_title expected))
    /\ List.length expected = 13
    /\ List.length c4 = 13.
Proof.
  intros H Hw Ht.
  destruct (expected_sections_keyed H) as [expected [He Hk]].
  destruct (expected_sections_keys H) as [l [Hl [Hlen _]]].
  rewrite He in Hl. injection Hl as <-.
  pose proof (schedule_plain_labels H He) as Hplain.
  rewrite do_housekeeping_steps, add_missing_sections_loop, He.
  rewrite (create_loop pid uuid4 [] w Hk), Hw, missing_labels_empty, Hlen.
  cbn [app Nat.mul].
  set (created := create_secs pid uuid4 (drawn w) expected).
  set (w1 := grown _ created w).
  assert (Hs1 : sections w1 = created).
  { unfold w1, grown. cbn [sections]. rewrite Hw. reflexivity. }
  assert (Ht1 : tasks w1 = []).
  { unfold w1, grown. cbn [tasks]. exact Ht. }
  rewrite (@archive_unwanted_sections_clean now w1 expected He).
  2:{ rewrite Hs1. apply created_wanted. apply incl_refl. }
  rewrite set_section_order_positions.
  set (w2 := with_drawn (S (drawn w1)) w1).
  destruct (fresh_titles now fr created pid uuid4 Hplain (drawn w))
    as [Htitles Hdue].
  fold created in Htitles, Hdue.
  destruct (@titles_loop now uuid4 fr (sections w2) (tasks w2) (sections w2)
              (map fresh_title expected) [] w2) as [c4 [Hrun [_ Hmap]]].
  { unfold w2, with_drawn. cbn [sections tasks]. rewrite Hs1, Ht1.
    exact Htitles. }
  rewrite set_section_titles_loop, Hrun.
  exists expected, c4.
  split; [reflexivity|]. cbn [fst app].
  assert (Hmap' : map rename_of c4
                  = map Some (combine (map s_id created)
                                (map fresh_title expected))).
  { rewrite Hmap. unfold w2, with_drawn. cbn [sections].
    rewrite Hs1, Hdue. reflexivity. }
  split; [|split; [exact Hmap' | split; [exact Hlen|]]].
  - rewrite Hs1. unfold created at 2. rewrite length_create_secs, Hlen.
    unfold w1, grown. cbn [drawn]. reflexivity.
  - apply (f_equal (@List.length _)) in Hmap'.
    rewrite !length_map, length_combine, !length_map in Hmap'.
    unfold created in Hmap'. rewrite length_create_secs, Hlen in Hmap'.
    exact Hmap'.
Qed.

Lemma do_housekeeping_empty_board_witness :
  exists expected c4,
    _get_expected_sections now0 = inr expected
    /\ fst (do_housekeeping now0 (u "p") uuid_n repr_integral w_empty)
       = inr (create_cmds (u "p") uuid_n (drawn w_empty) expected
              ++ [section_reorder (uuid_n (drawn w_empty + 39))
                    (combine
                       (map s_id
                          (create_secs (u "p") uuid_n (drawn w_empty)
                             expected))
                       (seq 1 13))]
              ++ c4)
    /\ map rename_of c4
       = map Some
           (combine
              (map s_id
                 (create_secs (u "p") uuid_n (drawn w_empty) expected))
              (map fresh_title expected))
    /\ List.length expected = 13
    /\ List.length c4 = 13.
Proof.
  apply (@do_housekeeping_empty_board now0 (u "p") uuid_n repr_integral
           w_empty).
  - unfold schedulable, valid, now0, MINYEAR, MAXYEAR; cbn. lia.
  - reflexivity.
  - reflexivity.
Defined.

(** ** The project of the board *)

Lemma project_sections_app pid a b :
  project_sections pid (a ++ b)
  = project_sections pid a ++ project_sections pid b.
Proof. unfold project_sections. apply filter_app. Qed.

Lemma create_loop_project pid uuid4 :
  forall (ls : list str) (cmds : list command) (w : world),
    exists new n added,
      for_each ls (create_step pid uuid4) cmds w
      = (inr (cmds ++ new), grown n added w)
      /\ Forall (fun c => project_of c = Some pid) new
      /\ project_sections pid added = added.
Proof.
  induction ls as [|L ls IH]; intros cmds w; cbn [for_each].
  - exists [], 0, []. rewrite app_nil_r, grown_nothing.
    repeat split. constructor.
  - rewrite bind_run. destruct (carried (sections w) L) eqn:Hc.
    + rewrite (@create_step_carried pid uuid4 L cmds w Hc). apply IH.
    + rewrite (@create_step_missing pid uuid4 L cmds w Hc).
      destruct (IH (cmds ++ create_cmds pid uuid4 (drawn w) [L])
                  (grown 3 (create_secs pid uuid4 (drawn w) [L]) w))
        as [new [n [added [Hrun [Hnew Hadd]]]]].
      exists (create_cmds pid uuid4 (drawn w) [L] ++ new), (3 + n),
        (create_secs pid uuid4 (drawn w) [L] ++ added).
      split; [|split].
      * rewrite Hrun, grown_grown, app_assoc. reflexivity.
      * cbn [create_cmds app]. constructor; [reflexivity | exact Hnew].
      * rewrite project_sections_app, Hadd. f_equal.
        unfold project_sections. cbn [create_secs filter s_project_id].
        rewrite (proj2 (eqb_eq pid pid) eq_refl). reflexivity.
Qed.

(** X16.  A pass stays in its project.  When every section of the
    working set belongs to the project of the pass, as after the
    selection of [get_state], it still does after
    [add_missing_sections], and every create command names that
    project. *)
Theorem add_missing_sections_in_project (now : datetime) (pid : str)
    (uuid4 : nat -> str) (w : world) (cmds : list command) (w1 : world) :
  project_sections pid (sections w) = sections w ->
  add_missing_sections now pid uuid4 w = (inr cmds, w1) ->
  project_sections pid (sections w1) = sections w1
  /\ Forall (fun c => project_of c = Some pid) cmds.
Proof.
  intros Hw. rewrite add_missing_sections_loop.
  destruct (_get_expected_sections now) as [e|expected]; [discriminate|].
  destruct (create_loop_project pid uuid4 expected [] w)
    as [new [n [added [Hrun [Hnew Hadd]]]]].
  rewrite Hrun. cbn [app]. intros E. injection E as <- <-.
  split; [|exact Hnew].
  unfold grown. cbn [sections]. rewrite project_sections_app, Hw, Hadd.
  reflexivity.
Qed.

Lemma add_missing_sections_in_project_witness :
  project_sections (u "p")
    (sections (snd (add_missing_sections now0 (u "p") uuid_n w_archive)))
  = sections (snd (add_missing_sections now0 (u "p") uuid_n w_archive))
  /\ Forall (fun c => project_of c = Some (u "p"))
       (commands_of (add_missing_sections now0 (u "p") uuid_n w_archive)).
Proof.
  apply (@add_missing_sections_in_project now0 (u "p") uuid_n w_archive).
  - vm_compute. reflexivity.
  - vm_compute. reflexivity.
Defined.
